(** * Ajax SSE manager: event de-duplication, device resolution, state protection

    A shallow embedding of [custom_components/ajax/sse_manager.py]
    (class [SSEManager]) and the properties of its event pipeline.

    Conventions of the embedding:
    - payload values (the [dict[str, Any]] handed to [_handle_event]) are
      [pyval]s; dictionaries with string keys are [gmap string _];
    - [coordinator.account.spaces] and [space.devices] are Python dicts whose
      iteration order the code depends on ([.values()] loops with first match
      winning), so they are association lists in iteration order; a found
      space or device is referred to by its position, and an in-place
      attribute assignment rewrites the entry at that position;
    - wall-clock readings ([time.time()], [datetime.now]) are rationals in
      seconds since the epoch, passed in by the caller: [now] is the reading
      taken in [_handle_event], [now_h] the later one taken inside a handler;
    - an exception leaves every assignment made before it in place, so
      stateful code lives in a state-and-exception monad whose state survives
      a raise;
    - [_LOGGER] calls do not touch the manager or the coordinator and are
      left out; calls into the coordinator ([asyncio.create_task(...)],
      [async_set_updated_data], [hass.bus.async_fire]) are appended to an
      effect trace. *)

From Stdlib Require Import Ascii String QArith Lqa.
From stdpp Require Import gmap strings pretty list fin_maps.

Set Warnings "-register-all".

(** ** Python values and the operations the manager applies to them *)

Inductive pyval :=
  | PNone
  | PBool (b : bool)
  | PInt (n : Z)
  | PStr (s : string)
  | PList (l : list pyval)
  | PDict (d : gmap string pyval).

(** [bool(v)] *)
Definition truthy (v : pyval) : bool :=
  match v with
  | PNone => false
  | PBool b => b
  | PInt n => negb (n =? 0)%Z
  | PStr s => negb (String.eqb s "")
  | PList l => match l with [] => false | _ => true end
  | PDict d => negb (size d =? 0)%nat
  end.

(** [a or b] *)
Definition py_or (a b : pyval) : pyval := if truthy a then a else b.

(** [d.get(k, dflt)] on a dictionary *)
Definition dict_get (d : gmap string pyval) (k : string) (dflt : pyval) : pyval :=
  default dflt (d !! k).

(** [v == s] for a string literal [s] *)
Definition eq_str (v : pyval) (s : string) : bool :=
  match v with PStr t => String.eqb t s | _ => false end.

(** [k in table] *)
Definition has_key {V} (k : string) (table : gmap string V) : bool :=
  match table !! k with Some _ => true | None => false end.

(** [str.lower()], on ASCII letters *)
Definition lower_ascii (c : ascii) : ascii :=
  let n := nat_of_ascii c in
  if (65 <=? n)%nat && (n <=? 90)%nat then ascii_of_nat (n + 32) else c.

Fixpoint lower (s : string) : string :=
  match s with
  | EmptyString => EmptyString
  | String c r => String (lower_ascii c) (lower r)
  end.

(** [s.endswith(suffix)] *)
Definition endswith (s suffix : string) : bool :=
  let n := String.length s in
  let k := String.length suffix in
  (k <=? n)%nat && String.eqb (substring (n - k) k s) suffix.

(** [sub in s] *)
Definition contains (sub s : string) : bool :=
  match index 0 sub s with Some _ => true | None => false end.

(** [x < y] on clock readings *)
Definition Qltb (x y : Q) : bool := negb (Qle_bool y x).

(** ** Exceptions

    The exceptions the body of [_handle_event] can raise on a payload; all
    of them derive from [Exception]. *)

Inductive exn :=
  | AttributeError
  | TypeError
  | KeyError
  | OtherError (msg : string).

Inductive outcome (A : Type) :=
  | Val (a : A)
  | Raise (e : exn).
Arguments Val {A} a.
Arguments Raise {A} e.

(** ** What the module imports

    [EVENT_TAG_TO_STATE] and the other tables come from [sqs_manager],
    [parse_event_code] from [event_codes], [SecurityState] from the models,
    [get_pending_ha_action] from the coordinator. None of them is part of
    this file's source, so the manager is verified against any instance.
    [py_str] is [str()] as an f-string applies it, [isoformat] is
    [datetime.isoformat] of a clock reading. *)

Class Env := {
  SecurityState : Type;
  SecurityState_eq_dec :: EqDecision SecurityState;
  state_value : SecurityState -> string;
  EVENT_TAG_TO_STATE : gmap string SecurityState;
  DOOR_EVENTS : gmap string (string * bool);
  MOTION_EVENTS : gmap string (string * bool);
  SMOKE_EVENTS : gmap string (string * bool);
  FLOOD_EVENTS : gmap string (string * bool);
  GLASS_EVENTS : gmap string (string * bool);
  TAMPER_EVENTS : gmap string (string * bool);
  DEVICE_STATUS_EVENTS : gmap string (string * bool);
  RELAY_EVENTS : gmap string (string * bool);
  SCENARIO_EVENTS : gset string;
  parse_event_code : pyval -> outcome (option (gmap string pyval));
  get_pending_ha_action : string -> bool;
  py_str : pyval -> string;
  isoformat : Q -> string
}.

(** ** Data model *)

Record Device := {
  dev_id : string;
  dev_name : string;
  dev_online : bool;
  dev_attributes : gmap string pyval
}.

Record Space `{Env} := {
  sp_hub_id : string;
  sp_name : string;
  sp_security_state : SecurityState;
  sp_devices : list (string * Device)
}.

(** Calls made on the coordinator, in program order. *)
Inductive effect :=
  | RequestRefresh
  | CreateNotification (action : string) (source_name : pyval) (space_name : string)
  | FireScenario (scenario_name initiator_type target_name : pyval)
                 (event_tag space_name : string)
  | SetUpdatedData.

Record Manager `{Env} := {
  spaces : list (string * Space);
  _last_state_update : gmap string Q;
  _recent_events : gmap string Q;
  _dedup_window : Q;
  effects : list effect
}.

(** [SSEManager.__init__] on a coordinator holding [sps] *)
Definition init `{Env} (sps : list (string * Space)) : Manager :=
  {| spaces := sps;
     _last_state_update := ∅;
     _recent_events := ∅;
     _dedup_window := 5;
     effects := [] |}.

(** ** State and exceptions *)

Section Monad.
Context `{Env}.

Definition M (A : Type) : Type := Manager -> outcome A * Manager.

Definition ret {A} (a : A) : M A := fun m => (Val a, m).

Definition bind {A B} (c : M A) (k : A -> M B) : M B :=
  fun m =>
    match c m with
    | (Val a, m') => k a m'
    | (Raise e, m') => (Raise e, m')
    end.

Definition raise {A} (e : exn) : M A := fun m => (Raise e, m).

Definition get_state : M Manager := fun m => (Val m, m).

Definition modify (f : Manager -> Manager) : M unit := fun m => (Val tt, f m).

(** [try: c  except Exception: handler] *)
Definition try_except {A} (c : M A) (handler : exn -> M A) : M A :=
  fun m =>
    match c m with
    | (Val a, m') => (Val a, m')
    | (Raise e, m') => handler e m'
    end.
End Monad.

Notation "'let*' x := c 'in' k" := (bind c (fun x => k))
  (at level 10, x name, c at level 100, k at level 200, only parsing).
Notation "c >>> k" := (bind c (fun _ => k))
  (at level 100, k at level 200, right associativity, only parsing).

(** ** The manager *)

Section Manager.
Context `{Env}.

(** *** State updates *)

Definition set_space_state (st : SecurityState) (sp : Space) : Space :=
  {| sp_hub_id := sp_hub_id sp; sp_name := sp_name sp;
     sp_security_state := st; sp_devices := sp_devices sp |}.

Definition set_devices (ds : list (string * Device)) (sp : Space) : Space :=
  {| sp_hub_id := sp_hub_id sp; sp_name := sp_name sp;
     sp_security_state := sp_security_state sp; sp_devices := ds |}.

(** [dev.attributes[k] = v] *)
Definition set_attr (k : string) (v : pyval) (d : Device) : Device :=
  {| dev_id := dev_id d; dev_name := dev_name d; dev_online := dev_online d;
     dev_attributes := <[k := v]> (dev_attributes d) |}.

(** [dev.online = b] *)
Definition set_online (b : bool) (d : Device) : Device :=
  {| dev_id := dev_id d; dev_name := dev_name d; dev_online := b;
     dev_attributes := dev_attributes d |}.

(** The device at position [i] of [space.devices] is updated in place. *)
Definition update_device (i : nat) (f : Device -> Device) (sp : Space) : Space :=
  set_devices (alter (prod_map id f) i (sp_devices sp)) sp.

(** The space at position [si] of [account.spaces] is replaced by [sp]. *)
Definition put_space (si : nat) (sp : Space) : M unit :=
  modify (fun m =>
    {| spaces := alter (fun ks => (ks.1, sp)) si (spaces m);
       _last_state_update := _last_state_update m;
       _recent_events := _recent_events m;
       _dedup_window := _dedup_window m;
       effects := effects m |}).

(** [self._last_state_update[hub_id] = t] *)
Definition mark_updated (hub_id : string) (t : Q) : M unit :=
  modify (fun m =>
    {| spaces := spaces m;
       _last_state_update := <[hub_id := t]> (_last_state_update m);
       _recent_events := _recent_events m;
       _dedup_window := _dedup_window m;
       effects := effects m |}).

Definition set_recent_events (r : gmap string Q) : M unit :=
  modify (fun m =>
    {| spaces := spaces m;
       _last_state_update := _last_state_update m;
       _recent_events := r;
       _dedup_window := _dedup_window m;
       effects := effects m |}).

Definition emit (e : effect) : M unit :=
  modify (fun m =>
    {| spaces := spaces m;
       _last_state_update := _last_state_update m;
       _recent_events := _recent_events m;
       _dedup_window := _dedup_window m;
       effects := effects m ++ [e] |}).

(** *** [is_state_protected] (lines 98-110), at clock reading [now] *)

Definition is_state_protected (m : Manager) (hub_id : string) (now : Q) : bool :=
  let last_update := default 0%Q (_last_state_update m !! hub_id) in
  Qltb (now - last_update) 5.

(** *** [_find_device] (lines 327-354)

    The result is the position of the device in [space.devices.values()]
    together with the device. A truthy [source_id] that is not a string
    raises [TypeError]: a list or dict is unhashable at
    [source_id in space.devices], a number is not found and then has no
    [len()]. *)

Definition found (r : option (nat * (string * Device))) : option (nat * Device) :=
  (fun p => (p.1, p.2.2)) <$> r.

(** [source_id in space.devices], on the entry [kd] of the mapping *)
Definition id_matches (sid : string) (kd : string * Device) : Prop :=
  kd.1 = sid.

(** [len(device.id) == 16 and device.id.endswith(source_id)] *)
Definition suffix_matches (sid : string) (kd : string * Device) : Prop :=
  Is_true ((String.length (dev_id kd.2) =? 16)%nat && endswith (dev_id kd.2) sid).

(** [device.name == source_name] *)
Definition name_matches (n : string) (kd : string * Device) : Prop :=
  dev_name kd.2 = n.

Global Instance id_matches_dec sid kd : Decision (id_matches sid kd).
Proof. unfold id_matches. apply _. Defined.

Global Instance suffix_matches_dec sid kd : Decision (suffix_matches sid kd).
Proof. unfold suffix_matches. apply _. Defined.

Global Instance name_matches_dec n kd : Decision (name_matches n kd).
Proof. unfold name_matches. apply _. Defined.

Definition find_by_name (devs : list (string * Device)) (source_name : pyval)
  : option (nat * Device) :=
  if truthy source_name then
    match source_name with
    | PStr n => found (list_find (name_matches n) devs)
    | _ => None
    end
  else None.

Definition _find_device (devs : list (string * Device)) (source_name source_id : pyval)
  : outcome (option (nat * Device)) :=
  if truthy source_id then
    match source_id with
    | PStr sid =>
        match list_find (id_matches sid) devs with
        | Some hit => Val (found (Some hit))
        | None =>
            if (String.length sid =? 8)%nat then
              match list_find (suffix_matches sid) devs with
              | Some hit => Val (found (Some hit))
              | None => Val (find_by_name devs source_name)
              end
            else Val (find_by_name devs source_name)
        end
    | _ => Raise TypeError
    end
  else Val (find_by_name devs source_name).

(** *** Category handlers *)

(** The common tail of the device handlers: resolve, then update the
    device in place, or leave the space alone when nothing resolves. *)
Definition on_device (sp : Space) (source_name source_id : pyval)
    (f : Device -> Device) : outcome Space :=
  match _find_device (sp_devices sp) source_name source_id with
  | Raise e => Raise e
  | Val None => Val sp
  | Val (Some (i, _)) => Val (update_device i f sp)
  end.

Definition apply_to_space (si : nat) (r : outcome Space) : M unit :=
  match r with
  | Raise e => raise e
  | Val sp => put_space si sp
  end.

(** lines 362-366 and 452-456 *)
Definition override_by_transition (is_triggered : bool) (transition : pyval) : bool :=
  if eq_str transition "RECOVERED" then false
  else if eq_str transition "TRIGGERED" then true
  else is_triggered.

(** lines 271-325. Members of the [SecurityState] enum are truthy, so
    [not new_state] holds exactly when the tag is missing from the table. *)
Definition _handle_security_event (si : nat) (space : Space)
    (event_tag : string) (source_name : pyval) (now_h : Q) : M unit :=
  match EVENT_TAG_TO_STATE !! event_tag with
  | None => ret tt
  | Some new_state =>
      let old_state := sp_security_state space in
      let state_changed := negb (bool_decide (old_state = new_state)) in
      let source_name :=
        if get_pending_ha_action (sp_hub_id space)
        then PStr "Home Assistant" else source_name in
      let is_group_event :=
        String.eqb event_tag "grouparm" || String.eqb event_tag "groupdisarm" in
      (if is_group_event then emit RequestRefresh else ret tt) >>>
      (if state_changed && negb is_group_event then
         put_space si (set_space_state new_state space) >>>
         mark_updated (sp_hub_id space) now_h
       else ret tt) >>>
      emit (CreateNotification (state_value new_state) source_name (sp_name space))
  end.

(** lines 356-376 *)
Definition _handle_door_event (space : Space) (event_tag : string)
    (source_name source_id transition : pyval) (now_h : Q) : outcome Space :=
  match DOOR_EVENTS !! event_tag with
  | None => Raise KeyError
  | Some (action_key, is_triggered) =>
      let is_triggered := override_by_transition is_triggered transition in
      on_device space source_name source_id (fun dev =>
        set_attr "door_opened_at" (PStr (isoformat now_h))
          (set_attr "door_opened" (PBool is_triggered) dev))
  end.

(** lines 378-394 *)
Definition _handle_motion_event (space : Space) (event_tag : string)
    (source_name source_id : pyval) (now_h : Q) : outcome Space :=
  match MOTION_EVENTS !! event_tag with
  | None => Raise KeyError
  | Some (action_key, is_triggered) =>
      on_device space source_name source_id (fun dev =>
        set_attr "motion_detected_at" (PStr (isoformat now_h))
          (set_attr "motion_detected" (PBool is_triggered) dev))
  end.

(** lines 396-414 *)
Definition _handle_smoke_event (space : Space) (event_tag : string)
    (source_name source_id : pyval) : outcome Space :=
  match SMOKE_EVENTS !! event_tag with
  | None => Raise KeyError
  | Some (action_key, is_triggered) =>
      on_device space source_name source_id (fun dev =>
        if contains "smoke" action_key then
          set_attr "smoke_detected" (PBool is_triggered) dev
        else if contains "temp" action_key then
          set_attr "temperature_alert" (PBool is_triggered) dev
        else if contains "co" action_key then
          set_attr "co_detected" (PBool is_triggered) dev
        else dev)
  end.

(** lines 416-429 *)
Definition _handle_flood_event (space : Space) (event_tag : string)
    (source_name source_id : pyval) : outcome Space :=
  match FLOOD_EVENTS !! event_tag with
  | None => Raise KeyError
  | Some (action_key, is_triggered) =>
      on_device space source_name source_id
        (set_attr "leak_detected" (PBool is_triggered))
  end.

(** lines 431-444 *)
Definition _handle_glass_event (space : Space) (event_tag : string)
    (source_name source_id : pyval) : outcome Space :=
  match GLASS_EVENTS !! event_tag with
  | None => Raise KeyError
  | Some (action_key, is_triggered) =>
      on_device space source_name source_id
        (set_attr "glass_break_detected" (PBool is_triggered))
  end.

(** lines 446-472 *)
Definition _handle_tamper_event (space : Space) (event_tag : string)
    (source_name source_id transition : pyval) : outcome Space :=
  match TAMPER_EVENTS !! event_tag with
  | None => Raise KeyError
  | Some (action_key, is_triggered) =>
      let is_triggered := override_by_transition is_triggered transition in
      on_device space source_name source_id
        (set_attr "tampered" (PBool is_triggered))
  end.

(** lines 474-494 *)
Definition _handle_device_status_event (space : Space) (event_tag : string)
    (source_name source_id : pyval) : outcome Space :=
  match DEVICE_STATUS_EVENTS !! event_tag with
  | None => Raise KeyError
  | Some (action_key, is_problem) =>
      on_device space source_name source_id (fun dev =>
        if contains "online" action_key || contains "offline" action_key then
          set_online (negb is_problem) dev
        else if contains "battery" action_key then
          set_attr "low_battery" (PBool is_problem) dev
        else if contains "power" action_key then
          set_attr "external_power_lost" (PBool is_problem) dev
        else dev)
  end.

(** lines 496-509 *)
Definition _handle_relay_event (space : Space) (event_tag : string)
    (source_name source_id : pyval) : outcome Space :=
  match RELAY_EVENTS !! event_tag with
  | None => Raise KeyError
  | Some (action_key, is_on) =>
      on_device space source_name source_id (set_attr "is_on" (PBool is_on))
  end.

(** lines 524-528: the first [INITIATOR_INFO] entry *)
Fixpoint initiator_info (entries : list pyval) : outcome (pyval * pyval) :=
  match entries with
  | [] => Val (PNone, PNone)
  | PDict data :: rest =>
      if eq_str (dict_get data "additionalDataV2Type" PNone) "INITIATOR_INFO"
      then Val (dict_get data "objectName" PNone, dict_get data "objectType" PNone)
      else initiator_info rest
  | _ :: _ => Raise AttributeError
  end.

(** [for data in v]: a list yields its items; a string or a dict yields
    strings, which have no [.get]; anything else is not iterable. *)
Definition scan_additional_data (v : pyval) : outcome (pyval * pyval) :=
  match v with
  | PList entries => initiator_info entries
  | PStr s => if String.eqb s "" then Val (PNone, PNone) else Raise AttributeError
  | PDict d => if (size d =? 0)%nat then Val (PNone, PNone) else Raise AttributeError
  | _ => Raise TypeError
  end.

(** lines 511-551 *)
Definition _handle_scenario_event (space : Space) (event : gmap string pyval)
    (event_tag : string) : M unit :=
  let additional_data_v2 := dict_get event "additionalDataV2" (PList []) in
  let source_name := dict_get event "sourceObjectName" (PStr "") in
  match scan_additional_data additional_data_v2 with
  | Raise e => raise e
  | Val (initiator_name, initiator_type) =>
      if negb (truthy initiator_name) then ret tt
      else emit (FireScenario initiator_name initiator_type source_name
                   event_tag (sp_name space))
  end.

(** *** [_handle_event] (lines 112-269) *)

(** What lines 137-187 extract from a payload. *)
Record Event := {
  event : gmap string pyval;
  event_tag : string;
  hub_id : pyval;
  source_name : pyval;
  source_id : pyval;
  source_type : pyval;
  transition : pyval
}.

(** [device.get(k) if isinstance(device, dict) and device.get(k)
     else (source.get(k) if isinstance(source, dict) else None)] *)
Definition device_or_source (device source : pyval) (k : string) : pyval :=
  let from_source :=
    match source with PDict s => dict_get s k PNone | _ => PNone end in
  match device with
  | PDict d => if truthy (dict_get d k PNone) then dict_get d k PNone else from_source
  | _ => from_source
  end.

(** [code_info.get(k, dflt) if code_info else dflt] *)
Definition code_field (code_info : option (gmap string pyval)) (k : string)
    (dflt : pyval) : pyval :=
  match code_info with
  | Some info => if negb (size info =? 0)%nat then dict_get info k dflt else dflt
  | None => dflt
  end.

(** lines 137-187; [Val None] is the early return of line 144. *)
Definition normalize (event_data : gmap string pyval) : outcome (option Event) :=
  match dict_get event_data "event" (PDict event_data) with
  | PDict ev =>
      match dict_get ev "eventTag" (PStr "") with
      | PStr raw_tag =>
          let event_tag := lower raw_tag in
          let hub_id := dict_get ev "hubId" PNone in
          if negb (truthy (PStr event_tag)) || negb (truthy hub_id) then Val None
          else
            let event_code := dict_get ev "eventCode" (PStr "") in
            let source := dict_get ev "source" (PDict ∅) in
            let device := dict_get ev "device" (PDict ∅) in
            let source_name := device_or_source device source "name" in
            let source_name :=
              if negb (truthy source_name)
              then py_or (dict_get ev "sourceObjectName" PNone)
                         (dict_get ev "sourceName" (PStr ""))
              else source_name in
            let source_id :=
              match device with
              | PDict d =>
                  if truthy (dict_get d "id" PNone) then dict_get d "id" PNone
                  else py_or (dict_get ev "sourceObjectId" PNone)
                             (dict_get ev "deviceId" (PStr ""))
              | _ => py_or (dict_get ev "sourceObjectId" PNone)
                           (dict_get ev "deviceId" (PStr ""))
              end in
            let source_type := device_or_source device source "type" in
            let source_type :=
              if negb (truthy source_type)
              then py_or (dict_get ev "sourceObjectType" PNone)
                         (dict_get ev "sourceType" (PStr ""))
              else source_type in
            match parse_event_code event_code with
            | Raise e => Raise e
            | Val code_info =>
                Val (Some {| event := ev;
                             event_tag := event_tag;
                             hub_id := hub_id;
                             source_name := source_name;
                             source_id := source_id;
                             source_type := source_type;
                             transition :=
                               code_field code_info "transition" (PStr "TRIGGERED") |})
            end
      | _ => Raise AttributeError
      end
  | _ => Raise AttributeError
  end.

(** line 201: [f"{source_id}:{event_tag}:{transition}"] *)
Definition event_key (e : Event) : string :=
  py_str (source_id e) +:+ ":" +:+ event_tag e +:+ ":" +:+ py_str (transition e).

(** lines 214-216 *)
Definition prune (now : Q) (recent : gmap string Q) : gmap string Q :=
  filter (fun kv => Is_true (Qltb (now - kv.2) 60)) recent.

(** lines 219-225: the first space, in iteration order, with this hub id
    (a [Space] object is truthy, so [not space] means none was found) *)
Definition find_space (sps : list (string * Space)) (hub : pyval)
  : option (nat * Space) :=
  (fun p => (p.1, p.2.2)) <$>
    list_find (fun ks => Is_true (eq_str hub (sp_hub_id ks.2))) sps.

(** lines 229-263 *)
Definition dispatch (si : nat) (space : Space) (e : Event) (now_h : Q) : M unit :=
  let tag := event_tag e in
  if has_key tag EVENT_TAG_TO_STATE then
    _handle_security_event si space tag (source_name e) now_h
  else if has_key tag DOOR_EVENTS then
    apply_to_space si
      (_handle_door_event space tag (source_name e) (source_id e) (transition e) now_h)
  else if has_key tag MOTION_EVENTS then
    apply_to_space si
      (_handle_motion_event space tag (source_name e) (source_id e) now_h)
  else if has_key tag SMOKE_EVENTS then
    apply_to_space si (_handle_smoke_event space tag (source_name e) (source_id e))
  else if has_key tag FLOOD_EVENTS then
    apply_to_space si (_handle_flood_event space tag (source_name e) (source_id e))
  else if has_key tag GLASS_EVENTS then
    apply_to_space si (_handle_glass_event space tag (source_name e) (source_id e))
  else if has_key tag TAMPER_EVENTS then
    apply_to_space si
      (_handle_tamper_event space tag (source_name e) (source_id e) (transition e))
  else if has_key tag DEVICE_STATUS_EVENTS then
    apply_to_space si
      (_handle_device_status_event space tag (source_name e) (source_id e))
  else if has_key tag RELAY_EVENTS then
    apply_to_space si (_handle_relay_event space tag (source_name e) (source_id e))
  else if bool_decide (tag ∈ SCENARIO_EVENTS) then
    _handle_scenario_event space (event e) tag
  else ret tt.

(** lines 218-266: hub lookup, dispatch, model-changed notification *)
Definition process (e : Event) (now_h : Q) : M unit :=
  let* m := get_state in
  match find_space (spaces m) (hub_id e) with
  | None => ret tt
  | Some (si, space) =>
      dispatch si space e now_h >>>
      emit SetUpdatedData
  end.

(** lines 200-216 followed by the rest of the body *)
Definition deduplicate (e : Event) (now now_h : Q) : M unit :=
  let* m := get_state in
  let last_time := default 0%Q (_recent_events m !! event_key e) in
  if Qltb (now - last_time) (_dedup_window m) then ret tt
  else
    set_recent_events (<[event_key e := now]> (_recent_events m)) >>>
    (let* m := get_state in set_recent_events (prune now (_recent_events m))) >>>
    process e now_h.

(** the body of the [try] *)
Definition handle_event_body (event_data : gmap string pyval) (now now_h : Q)
  : M unit :=
  match normalize event_data with
  | Raise e => raise e
  | Val None => ret tt
  | Val (Some e) => deduplicate e now now_h
  end.

Definition _handle_event (event_data : gmap string pyval) (now now_h : Q)
  : M unit :=
  try_except (handle_event_body event_data now now_h) (fun _ => ret tt).

(** The manager after one delivery. *)
Definition deliver (m : Manager) (event_data : gmap string pyval) (now now_h : Q)
  : Manager :=
  (_handle_event event_data now now_h m).2.

End Manager.

(** ** Entities of a door contact ([devices/door_contact.py])

    [DoorContactHandler] holds a reference to its device; the [value_fn]
    lambdas of the entity descriptions read the device when they are called,
    so they are functions of the device as it is then. The conditional
    entries are decided when the list is built. *)

Inductive BinarySensorDeviceClass := DOOR | TAMPER | MOVING | VIBRATION.

Record BinarySensor := {
  bs_key : string;
  bs_translation_key : string;
  bs_device_class : option BinarySensorDeviceClass;
  bs_icon : option string;
  bs_value_fn : Device -> pyval;
  bs_enabled_by_default : bool
}.

(** [self.device.attributes.get(k, False)] *)
Definition attr_or_false (k : string) (device : Device) : pyval :=
  dict_get (dev_attributes device) k (PBool false).

(** lines 28-116 *)
Definition get_binary_sensors (device : Device) : list BinarySensor :=
  let attributes := dev_attributes device in
  [ {| bs_key := "door"; bs_translation_key := "door";
       bs_device_class := Some DOOR; bs_icon := None;
       bs_value_fn := attr_or_false "door_opened";
       bs_enabled_by_default := true |} ]
  ++ (if has_key "external_contact_opened" attributes then
        [ {| bs_key := "external_contact"; bs_translation_key := "external_contact";
             bs_device_class := Some DOOR; bs_icon := None;
             bs_value_fn := attr_or_false "external_contact_opened";
             bs_enabled_by_default := true |} ]
      else [])
  ++ [ {| bs_key := "always_active"; bs_translation_key := "always_active";
          bs_device_class := None; bs_icon := Some "mdi:moon-waning-crescent";
          bs_value_fn := attr_or_false "always_active";
          bs_enabled_by_default := true |};
       {| bs_key := "armed_in_night_mode"; bs_translation_key := "armed_in_night_mode";
          bs_device_class := None; bs_icon := Some "mdi:shield-moon";
          bs_value_fn := attr_or_false "armed_in_night_mode";
          bs_enabled_by_default := true |};
       {| bs_key := "tamper"; bs_translation_key := "tamper";
          bs_device_class := Some TAMPER; bs_icon := None;
          bs_value_fn := attr_or_false "tampered";
          bs_enabled_by_default := true |} ]
  ++ (if has_key "tilt_detected" attributes || has_key "tilt" attributes then
        [ {| bs_key := "tilt"; bs_translation_key := "tilt";
             bs_device_class := Some MOVING; bs_icon := Some "mdi:angle-acute";
             bs_value_fn := fun d =>
               dict_get (dev_attributes d) "tilt_detected" (attr_or_false "tilt" d);
             bs_enabled_by_default := true |} ]
      else [])
  ++ (if has_key "shock_detected" attributes || has_key "shock" attributes then
        [ {| bs_key := "shock"; bs_translation_key := "shock";
             bs_device_class := Some VIBRATION; bs_icon := Some "mdi:vibrate";
             bs_value_fn := fun d =>
               dict_get (dev_attributes d) "shock_detected" (attr_or_false "shock" d);
             bs_enabled_by_default := true |} ]
      else []).

(** What the entity with key [k] of the list shows for the device as it is
    now: the entity platform calls the [value_fn] of the description. *)
Definition binary_sensor_state (sensors : list BinarySensor) (k : string)
    (device : Device) : option pyval :=
  (fun s => bs_value_fn s.2 device) <$> list_find (fun s => bs_key s = k) sensors.

(** The fields of a device that [get_sensors] reads and the SSE manager
    never does, next to the device. *)
Record DeviceInfo := {
  info_device : Device;
  battery_level : pyval;
  signal_strength : pyval;
  firmware_version : pyval;
  hardware_version : pyval;
  battery_state : pyval
}.

Inductive SensorDeviceClass := BATTERY | SIGNAL_STRENGTH | TEMPERATURE.

Inductive Unit := PERCENTAGE | SIGNAL_STRENGTH_DECIBELS_MILLIWATT | CELSIUS.

Record Sensor := {
  s_key : string;
  s_translation_key : string;
  s_device_class : option SensorDeviceClass;
  s_native_unit_of_measurement : option Unit;
  s_measurement : bool;
  s_icon : option string;
  s_value_fn : DeviceInfo -> pyval;
  s_enabled_by_default : bool
}.

(** [v is not None] *)
Definition is_not_None (v : pyval) : bool :=
  match v with PNone => false | _ => true end.

(** [self.device.attributes.get(k)] *)
Definition attr_or_None (k : string) (device : DeviceInfo) : pyval :=
  dict_get (dev_attributes (info_device device)) k PNone.

(** lines 118-222 *)
Definition get_sensors (device : DeviceInfo) : list Sensor :=
  let attributes := dev_attributes (info_device device) in
  [ {| s_key := "battery"; s_translation_key := "battery";
       s_device_class := Some BATTERY;
       s_native_unit_of_measurement := Some PERCENTAGE; s_measurement := true;
       s_icon := None;
       s_value_fn := fun d =>
         if is_not_None (battery_level d) then battery_level d else PNone;
       s_enabled_by_default := true |};
    {| s_key := "signal_strength"; s_translation_key := "signal_strength";
       s_device_class := Some SIGNAL_STRENGTH;
       s_native_unit_of_measurement := Some SIGNAL_STRENGTH_DECIBELS_MILLIWATT;
       s_measurement := true; s_icon := None;
       s_value_fn := fun d =>
         if is_not_None (signal_strength d) then signal_strength d else PNone;
       s_enabled_by_default := true |} ]
  ++ (if has_key "temperature" attributes then
        [ {| s_key := "temperature"; s_translation_key := "temperature";
             s_device_class := Some TEMPERATURE;
             s_native_unit_of_measurement := Some CELSIUS; s_measurement := true;
             s_icon := None;
             s_value_fn := attr_or_None "temperature";
             s_enabled_by_default := true |} ]
      else [])
  ++ (if is_not_None (firmware_version device) then
        [ {| s_key := "firmware_version"; s_translation_key := "firmware_version";
             s_device_class := None; s_native_unit_of_measurement := None;
             s_measurement := false; s_icon := Some "mdi:chip";
             s_value_fn := firmware_version;
             s_enabled_by_default := true |} ]
      else [])
  ++ (if is_not_None (hardware_version device) then
        [ {| s_key := "hardware_version"; s_translation_key := "hardware_version";
             s_device_class := None; s_native_unit_of_measurement := None;
             s_measurement := false; s_icon := Some "mdi:chip";
             s_value_fn := hardware_version;
             s_enabled_by_default := true |} ]
      else [])
  ++ (if has_key "connection_type" attributes then
        [ {| s_key := "connection_type"; s_translation_key := "connection_type";
             s_device_class := None; s_native_unit_of_measurement := None;
             s_measurement := false; s_icon := Some "mdi:wifi";
             s_value_fn := attr_or_None "connection_type";
             s_enabled_by_default := true |} ]
      else [])
  ++ (if has_key "operating_mode" attributes then
        [ {| s_key := "operating_mode"; s_translation_key := "operating_mode";
             s_device_class := None; s_native_unit_of_measurement := None;
             s_measurement := false; s_icon := Some "mdi:cog";
             s_value_fn := attr_or_None "operating_mode";
             s_enabled_by_default := true |} ]
      else [])
  ++ (if is_not_None (battery_state device) then
        [ {| s_key := "battery_state"; s_translation_key := "battery_state";
             s_device_class := None; s_native_unit_of_measurement := None;
             s_measurement := false; s_icon := Some "mdi:battery-heart-variant";
             s_value_fn := battery_state;
             s_enabled_by_default := true |} ]
      else []).

(** ** Entries and services of the integration ([__init__.py]) *)

(** [s.split(sep)] for a separator of one character *)
Fixpoint str_split (sep : ascii) (s : string) : list string :=
  match s with
  | EmptyString => [EmptyString]
  | String c rest =>
      if Ascii.eqb c sep then EmptyString :: str_split sep rest
      else match str_split sep rest with
           | part :: parts => String c part :: parts
           | [] => [String c EmptyString]
           end
  end.

(** lines 89-96, and 119-125 alike: the space id in the unique id of an
    alarm panel entity, or nothing when the unique id is rejected *)
Definition space_id_of_unique_id (unique_id : string) : option string :=
  let unique_id_parts := str_split "_" unique_id in
  if (length unique_id_parts <? 3)%nat
     || negb (String.eqb (nth 1 unique_id_parts "") "alarm")
  then None
  else Some (nth 2 unique_id_parts "").

(** The calls the service handlers make on the coordinator. *)
Inductive coordinator_call :=
  | async_arm_space (space_id : string) (force : bool)
  | async_arm_night_mode (space_id : string) (force : bool).

(** lines 74-102. [entity_id] is [call.data.get("entity_id")], which the
    service schema makes a string when it is there; [registry] gives the
    unique id of the entities the entity registry knows. The result is the
    call made on the coordinator, if one is made; an exception out of that
    call is caught at line 101, so the handler itself returns in every
    case. *)
Definition async_handle_force_arm (registry : gmap string string)
    (entity_id : option string) : option coordinator_call :=
  match entity_id with
  | None => None
  | Some id =>
      if String.eqb id "" then None
      else match registry !! id with
           | None => None
           | Some unique_id =>
               match space_id_of_unique_id unique_id with
               | None => None
               | Some space_id => Some (async_arm_space space_id true)
               end
           end
  end.

(** lines 104-131 *)
Definition async_handle_force_arm_night (registry : gmap string string)
    (entity_id : option string) : option coordinator_call :=
  match entity_id with
  | None => None
  | Some id =>
      if String.eqb id "" then None
      else match registry !! id with
           | None => None
           | Some unique_id =>
               match space_id_of_unique_id unique_id with
               | None => None
               | Some space_id => Some (async_arm_night_mode space_id true)
               end
           end
  end.

(** What [async_setup_entry] and [async_unload_entry] read and write of
    Home Assistant: [hass.data.get(DOMAIN)], a dict from entry id to the
    coordinator of the entry; the services registered under the domain, each
    with the coordinator its handler closes over; and the coordinators whose
    API connection was closed. A coordinator is an object: it is named by a
    number taken from [next_object] when it is created. *)
Record Hass := {
  domain_data : option (gmap string nat);
  services : gmap string nat;
  closed : list nat;
  next_object : nat
}.

(** How [api.async_login()] ends. *)
Inductive login_result := LoggedIn | AjaxAuthError | AjaxApiError.

(** [hass.data[DOMAIN]] once it exists *)
Definition entries (hass : Hass) : gmap string nat :=
  default ∅ (domain_data hass).

(** lines 38-152. [first_refresh] and [forward] say whether
    [async_config_entry_first_refresh] and [async_forward_entry_setups]
    raise, and what; registering a service under a name that is taken
    replaces the handler. *)
Definition async_setup_entry (entry_id : string) (login : login_result)
    (first_refresh forward : option exn) (hass : Hass) : outcome bool * Hass :=
  let hass :=
    {| domain_data := Some (entries hass); services := services hass;
       closed := closed hass; next_object := next_object hass |} in
  match login with
  | AjaxAuthError => (Val false, hass)
  | AjaxApiError => (Raise (OtherError "ConfigEntryNotReady"), hass)
  | LoggedIn =>
      let coordinator := next_object hass in
      let hass :=
        {| domain_data := domain_data hass; services := services hass;
           closed := closed hass; next_object := S coordinator |} in
      match first_refresh with
      | Some ex => (Raise ex, hass)
      | None =>
          let hass :=
            {| domain_data := Some (<[entry_id := coordinator]> (entries hass));
               services := services hass;
               closed := closed hass; next_object := next_object hass |} in
          match forward with
          | Some ex => (Raise ex, hass)
          | None =>
              (Val true,
               {| domain_data := domain_data hass;
                  services := <["force_arm_night" := coordinator]>
                                (<["force_arm" := coordinator]> (services hass));
                  closed := closed hass; next_object := next_object hass |})
          end
      end
  end.

(** lines 155-168. [unload_ok] is what [async_unload_platforms] returns,
    [close] says whether [coordinator.api.close()] raises. *)
Definition async_unload_entry (entry_id : string) (unload_ok : bool)
    (close : option exn) (hass : Hass) : outcome bool * Hass :=
  if unload_ok then
    match domain_data hass with
    | None => (Raise KeyError, hass)
    | Some data =>
        match data !! entry_id with
        | None => (Raise KeyError, hass)
        | Some coordinator =>
            let hass :=
              {| domain_data := Some (delete entry_id data);
                 services := services hass;
                 closed := closed hass; next_object := next_object hass |} in
            match close with
            | Some ex => (Raise ex, hass)
            | None =>
                let hass :=
                  {| domain_data := domain_data hass; services := services hass;
                     closed := closed hass ++ [coordinator];
                     next_object := next_object hass |} in
                if (size (entries hass) =? 0)%nat then
                  (Val unload_ok,
                   {| domain_data := domain_data hass;
                      services := delete "force_arm_night"
                                    (delete "force_arm" (services hass));
                      closed := closed hass; next_object := next_object hass |})
                else (Val unload_ok, hass)
            end
        end
    end
  else (Val unload_ok, hass).

(** Home Assistant before the integration is set up. *)
Definition fresh_hass : Hass :=
  {| domain_data := None; services := ∅; closed := []; next_object := 0 |}.



(** ** A sample installation

    One instance of the imports and one account, to run the manager on
    concrete deliveries. The tables list a few tags only, and the sample
    [isoformat] prints the whole seconds of a reading; the properties below
    are proved for every instance. *)

Inductive sample_state := DISARMED | ARMED | NIGHT_MODE.

Global Instance sample_state_eq_dec : EqDecision sample_state.
Proof. solve_decision. Defined.

Definition sample_code (info : list (string * pyval)) : option (gmap string pyval) :=
  Some (list_to_map info).

Global Instance sample_env : Env := {|
  SecurityState := sample_state;
  state_value st :=
    match st with
    | DISARMED => "disarmed" | ARMED => "armed" | NIGHT_MODE => "night_mode"
    end;
  EVENT_TAG_TO_STATE :=
    list_to_map [("arm", ARMED); ("disarm", DISARMED); ("nightmodeon", NIGHT_MODE);
                 ("grouparm", ARMED); ("groupdisarm", DISARMED)];
  DOOR_EVENTS :=
    list_to_map [("dooropened", ("door_opened", true));
                 ("doorclosed", ("door_closed", false))];
  MOTION_EVENTS := list_to_map [("motiondetected", ("motion_detected", true))];
  SMOKE_EVENTS := list_to_map [("smokedetected", ("smoke_detected", true))];
  FLOOD_EVENTS := list_to_map [("leakdetected", ("leak_detected", true))];
  GLASS_EVENTS := list_to_map [("glassbreak", ("glass_break", true))];
  TAMPER_EVENTS :=
    list_to_map [("lidopened", ("tamper_opened", true));
                 ("lidclosed", ("tamper_closed", false))];
  DEVICE_STATUS_EVENTS :=
    list_to_map [("deviceoffline", ("device_offline", true));
                 ("batterylow", ("battery_low", true))];
  RELAY_EVENTS := list_to_map [("relayon", ("relay_on", true))];
  SCENARIO_EVENTS := {["relayonbyscenario"]};
  parse_event_code code :=
    match code with
    | PStr "M_01_20" =>
        Val (sample_code [("type", PStr "ALARM"); ("transition", PStr "TRIGGERED")])
    | PStr "M_01_21" =>
        Val (sample_code [("type", PStr "ALARM"); ("transition", PStr "RECOVERED")])
    | PStr "M_09_00" =>
        Val (sample_code [("type", PStr "INFO"); ("transition", PStr "PULSE")])
    | PStr _ => Val None
    | _ => Raise TypeError
    end;
  get_pending_ha_action hub := String.eqb hub "H2";
  py_str v :=
    match v with
    | PStr s => s
    | PNone => "None"
    | PBool true => "True"
    | PBool false => "False"
    | _ => "<object>"
    end;
  isoformat t := pretty (Qnum t / Zpos (Qden t))%Z
|}.

Definition sample_device (id name : string) : Device :=
  {| dev_id := id; dev_name := name; dev_online := true; dev_attributes := ∅ |}.

Definition front_door : Device := sample_device "D1" "Front door".
Definition wire_input : Device := sample_device "0011223344556677" "Garage".

Definition home : Space :=
  {| sp_hub_id := "H1"; sp_name := "Home"; sp_security_state := ARMED;
     sp_devices := [("D1", front_door); ("0011223344556677", wire_input)] |}.

Definition office : Space :=
  {| sp_hub_id := "H2"; sp_name := "Office"; sp_security_state := DISARMED;
     sp_devices := [] |}.

Definition sample_manager : Manager := init [("s1", home); ("s2", office)].

(** Payloads *)

Definition payload (fields : list (string * pyval)) : gmap string pyval :=
  list_to_map fields.

Definition disarm_by_alice : gmap string pyval :=
  payload [("eventTag", PStr "Disarm"); ("hubId", PStr "H1");
           ("source", PDict (payload [("name", PStr "Alice")]))].

Definition door_opened_D1 : gmap string pyval :=
  payload [("event", PDict (payload
    [("eventTag", PStr "DoorOpened"); ("eventCode", PStr "M_01_20");
     ("hubId", PStr "H1"); ("device", PDict (payload [("id", PStr "D1")]))]))].

Definition door_opened_unknown_device : gmap string pyval :=
  payload [("eventTag", PStr "dooropened"); ("hubId", PStr "H1");
           ("deviceId", PStr "D9")].

Definition untagged : gmap string pyval :=
  payload [("hubId", PStr "H1"); ("deviceId", PStr "D1")].

Definition numeric_tag : gmap string pyval :=
  payload [("eventTag", PInt 7); ("hubId", PStr "H1")].

Definition arm_by_bob : gmap string pyval :=
  payload [("eventTag", PStr "Arm"); ("hubId", PStr "H1"); ("sourceName", PStr "Bob")].

Definition disarm_office : gmap string pyval :=
  payload [("eventTag", PStr "Disarm"); ("hubId", PStr "H2");
           ("sourceName", PStr "Carol")].

(** What [normalize] extracts from the payloads above. *)

Definition door_opened_D1_event : Event :=
  {| event := payload
       [("eventTag", PStr "DoorOpened"); ("eventCode", PStr "M_01_20");
        ("hubId", PStr "H1"); ("device", PDict (payload [("id", PStr "D1")]))];
     event_tag := "dooropened";
     hub_id := PStr "H1";
     source_name := PStr "";
     source_id := PStr "D1";
     source_type := PStr "";
     transition := PStr "TRIGGERED" |}.

Definition door_opened_unknown_device_event : Event :=
  {| event := door_opened_unknown_device;
     event_tag := "dooropened";
     hub_id := PStr "H1";
     source_name := PStr "";
     source_id := PStr "D9";
     source_type := PStr "";
     transition := PStr "TRIGGERED" |}.

Definition arm_by_bob_event : Event :=
  {| event := arm_by_bob;
     event_tag := "arm";
     hub_id := PStr "H1";
     source_name := PStr "Bob";
     source_id := PStr "";
     source_type := PStr "";
     transition := PStr "TRIGGERED" |}.

Definition disarm_office_event : Event :=
  {| event := disarm_office;
     event_tag := "disarm";
     hub_id := PStr "H2";
     source_name := PStr "Carol";
     source_id := PStr "";
     source_type := PStr "";
     transition := PStr "TRIGGERED" |}.

(** Further payloads, and what [normalize] extracts from them. *)

Definition numeric_device : gmap string pyval :=
  payload [("eventTag", PStr "dooropened"); ("hubId", PStr "H1");
           ("deviceId", PInt 7)].



Definition disarm_by_alice_event : Event :=
  {| event := disarm_by_alice;
     event_tag := "disarm";
     hub_id := PStr "H1";
     source_name := PStr "Alice";
     source_id := PStr "";
     source_type := PStr "";
     transition := PStr "TRIGGERED" |}.

Definition layered : gmap string pyval :=
  payload [("eventTag", PStr "LidOpened"); ("hubId", PStr "H1");
           ("device", PDict (payload [("name", PStr ""); ("id", PInt 0)]));
           ("source", PDict (payload [("name", PStr "Alice"); ("id", PStr "S1")]));
           ("sourceObjectName", PStr "Front door");
           ("sourceObjectId", PStr ""); ("deviceId", PStr "D1")].

Definition layered_event : Event :=
  {| event := layered;
     event_tag := "lidopened";
     hub_id := PStr "H1";
     source_name := PStr "Alice";
     source_id := PStr "D1";
     source_type := PStr "";
     transition := PStr "TRIGGERED" |}.

Definition button_entries : list pyval :=
  [PDict (payload [("additionalDataV2Type", PStr "OBJECT_INFO")]);
   PDict (payload [("additionalDataV2Type", PStr "INITIATOR_INFO");
                   ("objectName", PStr "Button"); ("objectType", PStr "BUTTON")]);
   PInt 0].

Definition relay_on_by_button : gmap string pyval :=
  payload [("eventTag", PStr "RelayOnByScenario"); ("hubId", PStr "H1");
           ("sourceObjectName", PStr "Lamp");
           ("additionalDataV2", PList button_entries)].

(** An entity registry with one alarm panel. *)
Definition sample_registry : gmap string string :=
  {["alarm_control_panel.home" := "01HXENTRY_alarm_A1B2C3"]}.

(** ** Vocabulary of the statements *)

(** [x], at position [i], is the first element of [l] that satisfies [P]. *)
Definition first_at {A} (P : A -> Prop) (l : list A) (i : nat) (x : A) : Prop :=
  l !! i = Some x /\ P x /\ forall j y, l !! j = Some y -> (j < i)%nat -> ~ P y.

(** No element of [l] satisfies [P]. *)
Definition no_match {A} (P : A -> Prop) (l : list A) : Prop :=
  Forall (fun x => ~ P x) l.

(** Neither the exact-id rule nor the suffix rule resolves [sid]: the id is
    empty, or no key equals it and the suffix rule is not attempted (the id
    does not have 8 characters) or finds no candidate. *)
Definition falls_through (devs : list (string * Device)) (sid : string) : Prop :=
  sid = ""
  \/ (no_match (id_matches sid) devs
      /\ (String.length sid <> 8%nat \/ no_match (suffix_matches sid) devs)).

(** [spaces[si].devices[di].attributes.get(k)], by position *)
Definition device_attr `{Env} (m : Manager) (si di : nat) (k : string) : option pyval :=
  match spaces m !! si with
  | Some (_, sp) =>
      match sp_devices sp !! di with
      | Some (_, d) => dev_attributes d !! k
      | None => None
      end
  | None => None
  end.

(** The manager once [now] is on record for the key of [e] and the cache
    is pruned: the state in which lines 218-266 run. *)
Definition recorded `{Env} (m : Manager) (e : Event) (now : Q) : Manager :=
  {| spaces := spaces m;
     _last_state_update := _last_state_update m;
     _recent_events := prune now (<[event_key e := now]> (_recent_events m));
     _dedup_window := _dedup_window m;
     effects := effects m |}.

(** Line 204: is a delivery of [e] at [now] within the window of the last
    recorded one? *)
Definition is_duplicate `{Env} (m : Manager) (e : Event) (now : Q) : bool :=
  Qltb (now - default 0%Q (_recent_events m !! event_key e)) (_dedup_window m).

(** A delivery that got past de-duplication is handled by lines 218-266
    under the [try]. *)
Definition processed `{Env} (e : Event) (now now_h : Q) (m : Manager)
  : outcome unit * Manager :=
  try_except (process e now_h) (fun _ => ret tt) (recorded m e now).

(** The audit notifications among the effects. *)
Definition notifications (es : list effect) : list (string * pyval * string) :=
  omap (fun e =>
          match e with
          | CreateNotification action source_name space_name =>
              Some (action, source_name, space_name)
          | _ => None
          end) es.

(** Consecutive invocations of the callback, sequenced in the monad: a
    raise out of one invocation would skip the remaining ones. *)
Fixpoint handle_all `{Env} (deliveries : list (gmap string pyval * Q * Q)) : M unit :=
  match deliveries with
  | [] => ret tt
  | (event_data, now, now_h) :: rest =>
      _handle_event event_data now now_h >>> handle_all rest
  end.

(** The deliveries of a list handled one after the other. *)
Fixpoint run `{Env} (m : Manager) (deliveries : list (gmap string pyval * Q * Q))
  : Manager :=
  match deliveries with
  | [] => m
  | (event_data, now, now_h) :: rest => run (deliver m event_data now now_h) rest
  end.

(** The event of a delivery that gets past normalisation and
    de-duplication, that is, of a delivery that is processed. *)
Definition passes `{Env} (m : Manager) (event_data : gmap string pyval) (now : Q)
  : option Event :=
  match normalize event_data with
  | Val (Some e) => if is_duplicate m e now then None else Some e
  | _ => None
  end.

(** The arrival time of the last delivery of the list that was processed
    under the key [key], if there is one. *)
Fixpoint last_processed `{Env} (m : Manager)
    (deliveries : list (gmap string pyval * Q * Q)) (key : string) : option Q :=
  match deliveries with
  | [] => None
  | (event_data, now, now_h) :: rest =>
      match last_processed (deliver m event_data now now_h) rest key with
      | Some t => Some t
      | None =>
          match passes m event_data now with
          | Some e => if String.eqb (event_key e) key then Some now else None
          | None => None
          end
      end
  end.

(** The clock readings of the deliveries: none is later than [now]. *)
Definition arrived_by (now : Q) (deliveries : list (gmap string pyval * Q * Q))
  : Prop :=
  Forall (fun d => (d.1.2 <= now)%Q) deliveries.

(** The tag is in one of the eight device tables and not in the security
    table, so [dispatch] hands the event to a device handler. *)
Definition is_device_tag `{Env} (tag : string) : Prop :=
  has_key tag EVENT_TAG_TO_STATE = false
  /\ (has_key tag DOOR_EVENTS || has_key tag MOTION_EVENTS || has_key tag SMOKE_EVENTS
      || has_key tag FLOOD_EVENTS || has_key tag GLASS_EVENTS || has_key tag TAMPER_EVENTS
      || has_key tag DEVICE_STATUS_EVENTS || has_key tag RELAY_EVENTS) = true.

(** The tag is in none of the ten tables. *)
Definition is_unhandled_tag `{Env} (tag : string) : Prop :=
  has_key tag EVENT_TAG_TO_STATE = false
  /\ (has_key tag DOOR_EVENTS || has_key tag MOTION_EVENTS || has_key tag SMOKE_EVENTS
      || has_key tag FLOOD_EVENTS || has_key tag GLASS_EVENTS || has_key tag TAMPER_EVENTS
      || has_key tag DEVICE_STATUS_EVENTS || has_key tag RELAY_EVENTS) = false
  /\ tag ∉ SCENARIO_EVENTS.

(** A delivery that causes no model mutation after de-duplication: its hub
    is unknown, or its tag is unhandled, or it is a device event whose device
    does not resolve. *)
Definition dropped `{Env} (m : Manager) (e : Event) : Prop :=
  find_space (spaces m) (hub_id e) = None
  \/ exists si space,
       find_space (spaces m) (hub_id e) = Some (si, space)
       /\ (is_unhandled_tag (event_tag e)
           \/ (is_device_tag (event_tag e)
               /\ _find_device (sp_devices space) (source_name e) (source_id e)
                  = Val None)).

(** The computation [c] leaves the component [proj] of the manager as it
    found it, whether it returns or raises. *)
Definition preserves `{Env} {X A} (proj : Manager -> X) (c : M A) : Prop :=
  forall m, proj (c m).2 = proj m.

(** The attribute keys the device handlers assign. *)
Definition sse_attribute_keys : list string :=
  ["door_opened"; "door_opened_at"; "motion_detected"; "motion_detected_at";
   "smoke_detected"; "temperature_alert"; "co_detected"; "leak_detected";
   "glass_break_detected"; "tampered"; "low_battery"; "external_power_lost";
   "is_on"].

(** [d'] is what handlers made of [d]: the id and the name are the same, no
    attribute key is lost, and the attributes outside [sse_attribute_keys]
    are as they were. *)
Definition device_updated (d d' : Device) : Prop :=
  dev_id d' = dev_id d
  /\ dev_name d' = dev_name d
  /\ (forall k, is_Some (dev_attributes d !! k) -> is_Some (dev_attributes d' !! k))
  /\ (forall k, k ∉ sse_attribute_keys -> dev_attributes d' !! k = dev_attributes d !! k).

(** Same hub id and name, and the same devices under the same keys in the
    same order, each of them updated. *)
Definition space_updated `{Env} (sp sp' : Space) : Prop :=
  sp_hub_id sp' = sp_hub_id sp
  /\ sp_name sp' = sp_name sp
  /\ Forall2 (fun kd kd' => kd'.1 = kd.1 /\ device_updated kd.2 kd'.2)
       (sp_devices sp) (sp_devices sp').

(** The same spaces under the same keys in the same order, each updated. *)
Definition model_updated `{Env} (sps sps' : list (string * Space)) : Prop :=
  Forall2 (fun ks ks' => ks'.1 = ks.1 /\ space_updated ks.2 ks'.2) sps sps'.

(** An entry of [additionalDataV2] that is a dict of another type than
    [INITIATOR_INFO]: the scan of lines 524-528 steps over it. *)
Definition other_entry (x : pyval) : Prop :=
  exists d, x = PDict d
            /\ eq_str (dict_get d "additionalDataV2Type" PNone) "INITIATOR_INFO" = false.

(** [obj.get(k)] when [obj] is a dict, [None] when it is not *)
Definition field_of (obj : pyval) (k : string) : pyval :=
  match obj with PDict d => dict_get d k PNone | _ => PNone end.

(** The first truthy candidate, and [last] when there is none *)
Fixpoint first_truthy (candidates : list pyval) (last : pyval) : pyval :=
  match candidates with
  | [] => last
  | c :: rest => if truthy c then c else first_truthy rest last
  end.

(** [dev] with the attributes [writes] assigned over its own, and nothing
    else changed *)
Definition device_after (writes : list (string * pyval)) (dev : Device) : Device :=
  {| dev_id := dev_id dev; dev_name := dev_name dev; dev_online := dev_online dev;
     dev_attributes := list_to_map writes ∪ dev_attributes dev |}.

(** [sp] with the device at position [i], found under key [k], replaced *)
Definition space_with_device `{Env} (sp : Space) (i : nat) (k : string)
    (dev' : Device) : Space :=
  set_devices (<[i := (k, dev')]> (sp_devices sp)) sp.

(** Does the character [c] occur in [s]? *)
Fixpoint has_char (c : ascii) (s : string) : bool :=
  match s with
  | EmptyString => false
  | String c' rest => Ascii.eqb c' c || has_char c rest
  end.

(** What may follow the space id in a unique id that is accepted: nothing,
    or an underscore and anything. *)
Definition ignored_tail (tail : string) : Prop :=
  tail = "" \/ exists rest, tail = String "_" rest.





(** * Properties *)

(** ** Clock comparisons *)

Lemma Qltb_lt (x y : Q) : Qltb x y = true <-> (x < y)%Q.
Proof.
  unfold Qltb. rewrite negb_true_iff, <- not_true_iff_false, Qle_bool_iff.
  split; intros; lra.
Qed.

Lemma Qltb_ge (x y : Q) : Qltb x y = false <-> (y <= x)%Q.
Proof. unfold Qltb. rewrite negb_false_iff. apply Qle_bool_iff. Qed.

(** ** Resolution returns an entry of the device mapping *)

Lemma found_Some (r : option (nat * (string * Device))) i d :
  found r = Some (i, d) <-> exists k, r = Some (i, (k, d)).
Proof.
  unfold found. destruct r as [[j [k d']]|]; simpl.
  - split.
    + intros [= -> ->]. by exists k.
    + intros [k' [= -> -> ->]]. done.
  - split; [done | by intros [? ?]].
Qed.

Lemma find_by_name_lookup devs source_name i d :
  find_by_name devs source_name = Some (i, d) ->
  exists k, devs !! i = Some (k, d).
Proof.
  unfold find_by_name. destruct (truthy source_name); [|done].
  destruct source_name; try done.
  intros [k Hk]%found_Some. apply list_find_Some in Hk as (Hl & _). eauto.
Qed.

Lemma find_device_lookup devs source_name source_id i d :
  _find_device devs source_name source_id = Val (Some (i, d)) ->
  exists k, devs !! i = Some (k, d).
Proof.
  unfold _find_device. destruct (truthy source_id).
  - destruct source_id as [| | |sid| |]; try done.
    destruct (list_find (id_matches sid) devs) as [hit|] eqn:Hid.
    + destruct hit as [j [k d']]. simpl. intros ?; simplify_eq.
      apply list_find_Some in Hid as (Hl & _). eauto.
    + destruct (String.length sid =? 8)%nat.
      * destruct (list_find (suffix_matches sid) devs) as [hit|] eqn:Hsuf.
        -- destruct hit as [j [k d']]. simpl. intros ?; simplify_eq.
           apply list_find_Some in Hsuf as (Hl & _). eauto.
        -- intros [= Hn]. by eapply find_by_name_lookup.
      * intros [= Hn]. by eapply find_by_name_lookup.
  - intros [= Hn]. by eapply find_by_name_lookup.
Qed.

Section Protection.
Context `{Env}.

Lemma is_state_protected_marked (m : Manager) hub T now :
  _last_state_update m !! hub = Some T ->
  is_state_protected m hub now = Qltb (now - T) 5.
Proof. unfold is_state_protected. by intros ->. Qed.

(** C6. [is_state_protected] answers true exactly when the time elapsed
    since the hub's recorded mark is below 5 seconds: after a mark at [T]
    a query at [T'] is protected when [T' - T < 5] and unprotected when
    [T' - T >= 5]. A hub without a mark is read as marked at time 0, so it
    is unprotected at every clock reading of at least 5 seconds, which every
    reading of the Unix clock is. *)
Theorem is_state_protected_window (m : Manager) (hub : string) (T T' : Q) :
  let marked := (mark_updated hub T m).2 in
  (is_state_protected m hub T' = true
     <-> (T' - default 0 (_last_state_update m !! hub) < 5)%Q)
  /\ ((T' - T < 5)%Q -> is_state_protected marked hub T' = true)
  /\ ((5 <= T' - T)%Q -> is_state_protected marked hub T' = false)
  /\ (_last_state_update m !! hub = None -> (5 <= T')%Q ->
      is_state_protected m hub T' = false).
Proof.
  intros marked.
  assert (Hm : _last_state_update marked !! hub = Some T)
    by (subst marked; simpl; apply lookup_insert_eq).
  repeat split.
  - unfold is_state_protected. by intros ?%Qltb_lt.
  - unfold is_state_protected. by intros ?%Qltb_lt.
  - intros Hlt. rewrite (is_state_protected_marked _ _ _ _ Hm). by apply Qltb_lt.
  - intros Hge. rewrite (is_state_protected_marked _ _ _ _ Hm). by apply Qltb_ge.
  - intros Hnone Hge. unfold is_state_protected. rewrite Hnone. simpl.
    apply Qltb_ge. lra.
Qed.
End Protection.

Lemma is_state_protected_window_witness :
  is_state_protected (mark_updated "H1" 1000 sample_manager).2 "H1" 1003 = true
  /\ is_state_protected (mark_updated "H1" 1000 sample_manager).2 "H1" 1005 = false
  /\ is_state_protected sample_manager "H1" 1000 = false.
Proof.
  split; [|split].
  - destruct (is_state_protected_window sample_manager "H1" 1000 1003)
      as (_ & Hin & _). apply Hin. lra.
  - destruct (is_state_protected_window sample_manager "H1" 1000 1005)
      as (_ & _ & Hout & _). apply Hout. lra.
  - destruct (is_state_protected_window sample_manager "H1" 0 1000)
      as (_ & _ & _ & Hnever). apply Hnever; [reflexivity | lra].
Defined.

(** ** Device handlers *)

Lemma eq_str_true (v : pyval) (s : string) : eq_str v s = true <-> v = PStr s.
Proof.
  destruct v; simpl; try (split; [discriminate | intros [=]]).
  rewrite String.eqb_eq. split; [by intros -> | by intros [= ->]].
Qed.

Lemma eq_str_false (v : pyval) (s : string) : eq_str v s = false <-> v <> PStr s.
Proof. rewrite <- eq_str_true. by destruct (eq_str v s). Qed.

Lemma override_by_transition_spec (dflt : bool) (transition : pyval) (b : bool) :
  (transition = PStr "RECOVERED" -> b = false) ->
  (transition = PStr "TRIGGERED" -> b = true) ->
  (transition <> PStr "RECOVERED" -> transition <> PStr "TRIGGERED" -> b = dflt) ->
  override_by_transition dflt transition = b.
Proof.
  intros Hr Ht Ho. unfold override_by_transition.
  destruct (eq_str transition "RECOVERED") eqn:Er.
  - symmetry. by apply Hr, eq_str_true.
  - destruct (eq_str transition "TRIGGERED") eqn:Et.
    + symmetry. by apply Ht, eq_str_true.
    + symmetry. by apply Ho; apply eq_str_false.
Qed.

Section Handlers.
Context `{Env}.

Lemma on_device_resolved (sp : Space) source_name source_id f i d :
  _find_device (sp_devices sp) source_name source_id = Val (Some (i, d)) ->
  on_device sp source_name source_id f = Val (update_device i f sp).
Proof. unfold on_device. by intros ->. Qed.

Lemma on_device_unresolved (sp : Space) source_name source_id f :
  _find_device (sp_devices sp) source_name source_id = Val None ->
  on_device sp source_name source_id f = Val sp.
Proof. unfold on_device. by intros ->. Qed.

Lemma update_device_lookup (sp : Space) i f k d :
  sp_devices sp !! i = Some (k, d) ->
  sp_devices (update_device i f sp) !! i = Some (k, f d).
Proof. intros Hl. simpl. by rewrite list_lookup_alter_eq, Hl. Qed.

(** C3. On a resolved device the door handler writes [door_opened] and the
    tamper handler writes [tampered] as the transition dictates: [false] for
    [RECOVERED], [true] for [TRIGGERED], whatever the table's default is, and
    the table's default for every other transition. *)
Theorem door_tamper_transition (space : Space) (tag label : string) (dflt : bool)
    (source_name source_id transition : pyval) (now_h : Q) (i : nat) (dev : Device)
    (b : bool) :
  _find_device (sp_devices space) source_name source_id = Val (Some (i, dev)) ->
  (transition = PStr "RECOVERED" -> b = false) ->
  (transition = PStr "TRIGGERED" -> b = true) ->
  (transition <> PStr "RECOVERED" -> transition <> PStr "TRIGGERED" -> b = dflt) ->
  (DOOR_EVENTS !! tag = Some (label, dflt) ->
   exists space' k dev',
     _handle_door_event space tag source_name source_id transition now_h = Val space'
     /\ sp_devices space' !! i = Some (k, dev')
     /\ dev_attributes dev' !! "door_opened" = Some (PBool b))
  /\ (TAMPER_EVENTS !! tag = Some (label, dflt) ->
      exists space' k dev',
        _handle_tamper_event space tag source_name source_id transition = Val space'
        /\ sp_devices space' !! i = Some (k, dev')
        /\ dev_attributes dev' !! "tampered" = Some (PBool b)).
Proof.
  intros Hfind Hr Ht Ho.
  pose proof (override_by_transition_spec dflt transition b Hr Ht Ho) as Hov.
  destruct (find_device_lookup _ _ _ _ _ Hfind) as [k Hk].
  split; intros Htab.
  - unfold _handle_door_event. rewrite Htab, Hov.
    rewrite (on_device_resolved _ _ _ _ _ _ Hfind).
    eexists _, k, _. split; [done|]. split.
    + by apply update_device_lookup.
    + simpl. rewrite lookup_insert_ne by done. apply lookup_insert_eq.
  - unfold _handle_tamper_event. rewrite Htab, Hov.
    rewrite (on_device_resolved _ _ _ _ _ _ Hfind).
    eexists _, k, _. split; [done|]. split.
    + by apply update_device_lookup.
    + simpl. apply lookup_insert_eq.
Qed.
End Handlers.

Lemma door_tamper_transition_witness :
  (exists space' k dev',
     _handle_door_event home "dooropened" (PStr "") (PStr "D1") (PStr "RECOVERED") 1000
       = Val space'
     /\ sp_devices space' !! 0%nat = Some (k, dev')
     /\ dev_attributes dev' !! "door_opened" = Some (PBool false))
  /\ (exists space' k dev',
        _handle_tamper_event home "lidclosed" (PStr "Front door") (PStr "")
          (PStr "TRIGGERED") = Val space'
        /\ sp_devices space' !! 0%nat = Some (k, dev')
        /\ dev_attributes dev' !! "tampered" = Some (PBool true)).
Proof.
  split.
  - destruct (door_tamper_transition home "dooropened" "door_opened" true
               (PStr "") (PStr "D1") (PStr "RECOVERED") 1000 0 front_door false)
      as [Hdoor _]; [reflexivity | reflexivity | discriminate | congruence |].
    apply Hdoor. reflexivity.
  - destruct (door_tamper_transition home "lidclosed" "tamper_closed" false
               (PStr "Front door") (PStr "") (PStr "TRIGGERED") 1000 0 front_door true)
      as [_ Htamper]; [reflexivity | discriminate | reflexivity | congruence |].
    apply Htamper. reflexivity.
Defined.

(** ** Strings *)

Lemma append_cons (c : ascii) (s t : string) : String c s +:+ t = String c (s +:+ t).
Proof. reflexivity. Qed.

Lemma length_append (s t : string) :
  String.length (s +:+ t) = (String.length s + String.length t)%nat.
Proof.
  induction s as [|c s IH]; [done|]. rewrite append_cons. simpl. by rewrite IH.
Qed.

Lemma substring_all (s : string) : substring 0 (String.length s) s = s.
Proof. induction s as [|c s IH]; simpl; [done | by rewrite IH]. Qed.

Lemma substring_skip (pre s : string) (k : nat) :
  substring (String.length pre) k (pre +:+ s) = substring 0 k s.
Proof.
  induction pre as [|c pre IH]; [done|].
  rewrite append_cons. simpl. apply IH.
Qed.

Lemma substring_split (s : string) (n : nat) :
  (n <= String.length s)%nat ->
  s = substring 0 n s +:+ substring n (String.length s - n) s.
Proof.
  revert n. induction s as [|c s IH]; intros [|n] Hn; simpl in *; try done.
  - by rewrite substring_all.
  - rewrite append_cons. f_equal. apply IH. lia.
Qed.

(** [endswith] holds exactly of the strings that end with the suffix. *)
Lemma endswith_spec (s suffix : string) :
  endswith s suffix = true <-> exists pre, s = pre +:+ suffix.
Proof.
  unfold endswith. rewrite andb_true_iff, Nat.leb_le, String.eqb_eq. split.
  - intros [Hle Hsub]. exists (substring 0 (String.length s - String.length suffix) s).
    pose proof (substring_split s (String.length s - String.length suffix)) as Hs.
    replace (String.length s - (String.length s - String.length suffix))%nat
      with (String.length suffix) in Hs by lia.
    rewrite Hsub in Hs. apply Hs. lia.
  - intros [pre ->]. rewrite length_append. split; [lia|].
    replace (String.length pre + String.length suffix - String.length suffix)%nat
      with (String.length pre) by lia.
    rewrite substring_skip. apply substring_all.
Qed.

(** ** Device resolution *)

(** The suffix rule selects the devices whose own id has 16 characters and
    ends with the source id. *)
Lemma suffix_matches_spec (sid : string) (kd : string * Device) :
  suffix_matches sid kd
  <-> String.length (dev_id kd.2) = 16%nat /\ exists pre, dev_id kd.2 = pre +:+ sid.
Proof.
  unfold suffix_matches.
  by rewrite Is_true_true, andb_true_iff, Nat.eqb_eq, endswith_spec.
Qed.

Lemma first_at_list_find {A} (P : A -> Prop) `{forall x, Decision (P x)}
    (l : list A) (i : nat) (x : A) :
  list_find P l = Some (i, x) <-> first_at P l i x.
Proof. apply list_find_Some. Qed.

Lemma no_match_list_find {A} (P : A -> Prop) `{forall x, Decision (P x)} (l : list A) :
  list_find P l = None <-> no_match P l.
Proof. apply list_find_None. Qed.

Lemma first_at_find {A} (P : A -> Prop) `{forall x, Decision (P x)}
    (l : list A) (i : nat) (x : A) :
  first_at P l i x -> list_find P l = Some (i, x).
Proof. apply first_at_list_find. Qed.

Lemma no_match_find {A} (P : A -> Prop) `{forall x, Decision (P x)} (l : list A) :
  no_match P l -> list_find P l = None.
Proof. apply no_match_list_find. Qed.

Lemma truthy_PStr (s : string) : truthy (PStr s) = true <-> s <> "".
Proof.
  simpl. rewrite negb_true_iff, <- not_true_iff_false, String.eqb_eq. done.
Qed.

Lemma find_by_name_first devs (name : string) i kd :
  name <> "" -> first_at (name_matches name) devs i kd ->
  find_by_name devs (PStr name) = Some (i, kd.2).
Proof.
  intros Hne%truthy_PStr Hfirst. apply (first_at_find (name_matches name)) in Hfirst.
  unfold find_by_name. by rewrite Hne, Hfirst.
Qed.

Lemma find_by_name_none devs (name : string) :
  name = "" \/ no_match (name_matches name) devs ->
  find_by_name devs (PStr name) = None.
Proof.
  unfold find_by_name. intros [-> | Hno]; [done|].
  apply (no_match_find (name_matches name)) in Hno.
  destruct (truthy (PStr name)); [by rewrite Hno | done].
Qed.

Lemma find_device_falls_through devs (source_name : pyval) (sid : string) :
  falls_through devs sid ->
  _find_device devs source_name (PStr sid) = Val (find_by_name devs source_name).
Proof.
  unfold _find_device. intros [-> | [Hid Hsuf]]; [done|].
  apply (no_match_find (id_matches sid)) in Hid.
  destruct (truthy (PStr sid)); [|done]. rewrite Hid.
  destruct Hsuf as [Hlen%Nat.eqb_neq | Hsuf].
  - by rewrite Hlen.
  - apply (no_match_find (suffix_matches sid)) in Hsuf.
    rewrite Hsuf. by destruct (String.length sid =? 8)%nat.
Qed.

Lemma find_device_by_id devs (name sid : string) i kd :
  sid <> "" -> first_at (id_matches sid) devs i kd ->
  _find_device devs (PStr name) (PStr sid) = Val (Some (i, kd.2)).
Proof.
  intros Hne%truthy_PStr Hfirst.
  apply (first_at_find (id_matches sid)) in Hfirst.
  unfold _find_device. by rewrite Hne, Hfirst.
Qed.

Lemma find_device_by_suffix devs (name sid : string) i kd :
  no_match (id_matches sid) devs -> String.length sid = 8%nat ->
  first_at (suffix_matches sid) devs i kd ->
  _find_device devs (PStr name) (PStr sid) = Val (Some (i, kd.2)).
Proof.
  intros Hid Hlen Hfirst.
  apply (no_match_find (id_matches sid)) in Hid.
  apply (first_at_find (suffix_matches sid)) in Hfirst.
  assert (Hne : truthy (PStr sid) = true)
    by (apply truthy_PStr; intros ->; discriminate).
  unfold _find_device. rewrite Hne, Hid, Hlen. simpl. by rewrite Hfirst.
Qed.

Lemma find_device_by_name devs (name sid : string) i kd :
  falls_through devs sid -> name <> "" ->
  first_at (name_matches name) devs i kd ->
  _find_device devs (PStr name) (PStr sid) = Val (Some (i, kd.2)).
Proof.
  intros Hfall Hne Hfirst.
  rewrite find_device_falls_through by done. f_equal.
  by apply find_by_name_first.
Qed.

Lemma find_device_nothing devs (name sid : string) :
  falls_through devs sid -> name = "" \/ no_match (name_matches name) devs ->
  _find_device devs (PStr name) (PStr sid) = Val None.
Proof.
  intros Hfall Hname.
  rewrite find_device_falls_through by done. f_equal.
  by apply find_by_name_none.
Qed.

(** C4, as the code has it. Resolution tries in order, first match winning:
    (1) when [sourceId] is not empty, the entry of the device mapping keyed
    by it; (2) when [sourceId] has exactly 8 characters, the first device, in
    iteration order, whose own id has exactly 16 characters and ends with
    it; (3) when [sourceName] is not empty, the first device whose name
    equals it; and nothing otherwise. *)
Theorem find_device_resolution (devs : list (string * Device)) (name sid : string) :
  let r := _find_device devs (PStr name) (PStr sid) in
  (forall i kd, sid <> "" -> first_at (id_matches sid) devs i kd ->
     r = Val (Some (i, kd.2)))
  /\ (forall i kd, no_match (id_matches sid) devs -> String.length sid = 8%nat ->
        first_at (suffix_matches sid) devs i kd -> r = Val (Some (i, kd.2)))
  /\ (forall i kd, falls_through devs sid -> name <> "" ->
        first_at (name_matches name) devs i kd -> r = Val (Some (i, kd.2)))
  /\ (falls_through devs sid -> name = "" \/ no_match (name_matches name) devs ->
        r = Val None).
Proof.
  intros r. subst r. repeat split; intros.
  - by apply find_device_by_id.
  - by apply find_device_by_suffix.
  - by apply find_device_by_name.
  - by apply find_device_nothing.
Qed.

Lemma find_device_resolution_witness :
  _find_device (sp_devices home) (PStr "") (PStr "D1") = Val (Some (0%nat, front_door))
  /\ _find_device (sp_devices home) (PStr "") (PStr "44556677")
     = Val (Some (1%nat, wire_input))
  /\ _find_device (sp_devices home) (PStr "Garage") (PStr "D9")
     = Val (Some (1%nat, wire_input))
  /\ _find_device (sp_devices home) (PStr "Cellar") (PStr "D9") = Val None.
Proof.
  assert (Hno9 : falls_through (sp_devices home) "D9").
  { right. split; [|left; discriminate].
    apply (no_match_list_find (id_matches "D9")). reflexivity. }
  split; [|split; [|split]].
  - destruct (find_device_resolution (sp_devices home) "" "D1") as (Hid & _).
    apply (Hid 0%nat ("D1", front_door)); [discriminate|].
    apply (first_at_list_find (id_matches "D1")). reflexivity.
  - destruct (find_device_resolution (sp_devices home) "" "44556677")
      as (_ & Hsuf & _).
    apply (Hsuf 1%nat ("0011223344556677", wire_input)); [|reflexivity|].
    + apply (no_match_list_find (id_matches "44556677")). reflexivity.
    + apply (first_at_list_find (suffix_matches "44556677")). reflexivity.
  - destruct (find_device_resolution (sp_devices home) "Garage" "D9")
      as (_ & _ & Hname & _).
    apply (Hname 1%nat ("0011223344556677", wire_input)); [done|discriminate|].
    apply (first_at_list_find (name_matches "Garage")). reflexivity.
  - destruct (find_device_resolution (sp_devices home) "Cellar" "D9")
      as (_ & _ & _ & Hnone).
    apply Hnone; [done|]. right.
    apply (no_match_list_find (name_matches "Cellar")). reflexivity.
Defined.

(** C4 as stated fails on an event without a source name when a device has
    no name either: the name of the device equals [sourceName] exactly, the
    id rules do not apply, and nothing is resolved. *)
Lemma empty_name_is_not_matched :
  let devs := [("D7", sample_device "D7" "")] in
  first_at (name_matches "") devs 0 ("D7", sample_device "D7" "")
  /\ no_match (id_matches "") devs
  /\ _find_device devs (PStr "") (PStr "") = Val None.
Proof.
  split; [|split].
  - apply (first_at_list_find (name_matches "")). reflexivity.
  - apply (no_match_list_find (id_matches "")). reflexivity.
  - reflexivity.
Qed.

(** ** Resolution and the iteration order of the device mapping *)

Lemma no_match_perm {A} (P : A -> Prop) (l l' : list A) :
  l ≡ₚ l' -> no_match P l -> no_match P l'.
Proof. unfold no_match. by intros ->. Qed.

(** When at most one element satisfies [P], every order finds it. *)
Lemma first_at_perm_unique {A} (P : A -> Prop) `{forall x, Decision (P x)}
    (l l' : list A) (i : nat) (x : A) :
  l ≡ₚ l' ->
  (forall y, y ∈ l -> P y -> y = x) ->
  first_at P l i x ->
  exists i', first_at P l' i' x.
Proof.
  intros Hperm Huniq (Hl & HP & _).
  assert (Hin : x ∈ l') by (rewrite <- Hperm; by eapply list_elem_of_lookup_2).
  destruct (list_find_elem_of P l' x Hin HP) as [[i' y] Hfind].
  exists i'. apply first_at_list_find in Hfind as Hfirst.
  destruct Hfirst as (Hl' & HPy & _).
  assert (y = x) as <-; [|by apply (first_at_list_find P)].
  apply Huniq; [|done]. rewrite Hperm. by eapply list_elem_of_lookup_2.
Qed.

Lemma unique_key (devs : list (string * Device)) (kd kd' : string * Device) :
  NoDup devs.*1 -> kd ∈ devs -> kd' ∈ devs -> kd'.1 = kd.1 -> kd' = kd.
Proof.
  intros Hnd Hin Hin' Hkey. destruct kd as [k d], kd' as [k' d']. simpl in Hkey.
  subst k'. f_equal.
  apply (elem_of_list_to_map_1 (M := gmap string)) in Hin, Hin'; [|done..].
  congruence.
Qed.

Lemma falls_through_perm devs devs' sid :
  devs ≡ₚ devs' -> falls_through devs sid -> falls_through devs' sid.
Proof.
  intros Hperm [-> | [Hid Hsuf]]; [by left | right]. split.
  - by eapply no_match_perm.
  - destruct Hsuf as [Hlen | Hsuf]; [by left | right]. by eapply no_match_perm.
Qed.

(** C5, as the code has it. Over any two iteration orders of the same
    device mapping, resolution yields the same entry when it succeeds by the
    exact-id rule, and when it succeeds by the name rule on a name that a
    single device of the space bears. *)
Theorem find_device_order_independent (devs devs' : list (string * Device))
    (name sid : string) (i : nat) (kd : string * Device) :
  NoDup devs.*1 -> devs ≡ₚ devs' ->
  (sid <> "" -> first_at (id_matches sid) devs i kd ->
     _find_device devs (PStr name) (PStr sid) = Val (Some (i, kd.2))
     /\ exists i', devs' !! i' = Some kd
          /\ _find_device devs' (PStr name) (PStr sid) = Val (Some (i', kd.2)))
  /\ (falls_through devs sid -> name <> "" ->
      first_at (name_matches name) devs i kd ->
      (forall kd', kd' ∈ devs -> name_matches name kd' -> kd' = kd) ->
      _find_device devs (PStr name) (PStr sid) = Val (Some (i, kd.2))
      /\ exists i', devs' !! i' = Some kd
           /\ _find_device devs' (PStr name) (PStr sid) = Val (Some (i', kd.2))).
Proof.
  intros Hnd Hperm. split.
  - intros Hne Hfirst. split; [by apply find_device_by_id|].
    destruct (first_at_perm_unique (id_matches sid) devs devs' i kd)
      as [i' Hfirst']; [done| |done|].
    + intros y Hy Hmatch. destruct Hfirst as (Hl & Hk & _).
      apply (unique_key devs); [done|by eapply list_elem_of_lookup_2|done|].
      unfold id_matches in *. congruence.
    + exists i'. split; [apply Hfirst'|]. by apply find_device_by_id.
  - intros Hfall Hne Hfirst Huniq. split; [by apply find_device_by_name|].
    destruct (first_at_perm_unique (name_matches name) devs devs' i kd)
      as [i' Hfirst']; [done..|].
    exists i'. split; [apply Hfirst'|].
    apply find_device_by_name; [|done..]. by eapply falls_through_perm.
Qed.

Lemma find_device_order_independent_witness :
  let devs := sp_devices home in
  let devs' := [("0011223344556677", wire_input); ("D1", front_door)] in
  (exists i', devs' !! i' = Some ("D1", front_door)
      /\ _find_device devs' (PStr "") (PStr "D1") = Val (Some (i', front_door)))
  /\ (exists i', devs' !! i' = Some ("0011223344556677", wire_input)
      /\ _find_device devs' (PStr "Garage") (PStr "") = Val (Some (i', wire_input))).
Proof.
  intros devs devs'.
  assert (Hnd : NoDup devs.*1) by (apply (bool_decide_unpack _); exact I).
  assert (Hperm : devs ≡ₚ devs') by apply Permutation_swap.
  split.
  - destruct (find_device_order_independent devs devs' "" "D1" 0 ("D1", front_door)
                Hnd Hperm) as [Hid _].
    apply Hid; [discriminate|].
    apply (first_at_list_find (id_matches "D1")). reflexivity.
  - destruct (find_device_order_independent devs devs' "Garage" "" 1
                ("0011223344556677", wire_input) Hnd Hperm) as [_ Hname].
    apply Hname; [by left | discriminate | |].
    + apply (first_at_list_find (name_matches "Garage")). reflexivity.
    + intros kd' Hin Hmatch.
      apply list_elem_of_In in Hin. simpl in Hin.
      destruct Hin as [<- | [<- | []]]; [|reflexivity].
      unfold name_matches in Hmatch. simpl in Hmatch. discriminate Hmatch.
Defined.

(** C5 as stated fails when two devices of a space bear the same name: the
    name rule resolves to whichever comes first in iteration order. *)
Lemma same_name_depends_on_order :
  let a := ("A1", sample_device "A1" "Door") in
  let b := ("B2", sample_device "B2" "Door") in
  [a; b] ≡ₚ [b; a]
  /\ NoDup [a; b].*1
  /\ _find_device [a; b] (PStr "Door") (PStr "") = Val (Some (0%nat, a.2))
  /\ _find_device [b; a] (PStr "Door") (PStr "") = Val (Some (0%nat, b.2))
  /\ a.2 <> b.2.
Proof.
  intros a b. split; [apply Permutation_swap|].
  split; [apply (bool_decide_unpack _); exact I|].
  split; [reflexivity|]. split; [reflexivity|]. discriminate.
Qed.

(** ** Frame properties of the monadic code *)

Section Frames.
Context `{Env}.

Lemma preserves_ret {X A} (proj : Manager -> X) (a : A) : preserves proj (ret a).
Proof. by intros m. Qed.

Lemma preserves_raise {X A} (proj : Manager -> X) (e : exn) :
  preserves proj (raise (A := A) e).
Proof. by intros m. Qed.

Lemma preserves_get_state {X} (proj : Manager -> X) : preserves proj get_state.
Proof. by intros m. Qed.

Lemma preserves_bind {X A B} (proj : Manager -> X) (c : M A) (k : A -> M B) :
  preserves proj c -> (forall a, preserves proj (k a)) -> preserves proj (bind c k).
Proof.
  intros Hc Hk m. unfold bind. specialize (Hc m).
  destruct (c m) as [[a|e] m']; simpl in *; [|done].
  by rewrite Hk.
Qed.

Lemma preserves_try_except {X A} (proj : Manager -> X) (c : M A) (h : exn -> M A) :
  preserves proj c -> (forall e, preserves proj (h e)) ->
  preserves proj (try_except c h).
Proof.
  intros Hc Hh m. unfold try_except. specialize (Hc m).
  destruct (c m) as [[a|e] m']; simpl in *; [done|].
  by rewrite Hh.
Qed.

Lemma preserves_if {X A} (proj : Manager -> X) (b : bool) (c1 c2 : M A) :
  preserves proj c1 -> preserves proj c2 -> preserves proj (if b then c1 else c2).
Proof. by destruct b. Qed.

Lemma put_space_recent si sp : preserves _recent_events (put_space si sp).
Proof. by intros m. Qed.
Lemma put_space_window si sp : preserves _dedup_window (put_space si sp).
Proof. by intros m. Qed.
Lemma put_space_marks si sp : preserves _last_state_update (put_space si sp).
Proof. by intros m. Qed.
Lemma put_space_effects si sp : preserves effects (put_space si sp).
Proof. by intros m. Qed.

Lemma mark_updated_recent hub t : preserves _recent_events (mark_updated hub t).
Proof. by intros m. Qed.
Lemma mark_updated_window hub t : preserves _dedup_window (mark_updated hub t).
Proof. by intros m. Qed.
Lemma mark_updated_spaces hub t : preserves spaces (mark_updated hub t).
Proof. by intros m. Qed.
Lemma mark_updated_effects hub t : preserves effects (mark_updated hub t).
Proof. by intros m. Qed.

Lemma emit_recent e : preserves _recent_events (emit e).
Proof. by intros m. Qed.
Lemma emit_window e : preserves _dedup_window (emit e).
Proof. by intros m. Qed.
Lemma emit_marks e : preserves _last_state_update (emit e).
Proof. by intros m. Qed.
Lemma emit_spaces e : preserves spaces (emit e).
Proof. by intros m. Qed.

Lemma apply_to_space_recent si r : preserves _recent_events (apply_to_space si r).
Proof. by destruct r; intros m. Qed.
Lemma apply_to_space_window si r : preserves _dedup_window (apply_to_space si r).
Proof. by destruct r; intros m. Qed.
Lemma apply_to_space_marks si r : preserves _last_state_update (apply_to_space si r).
Proof. by destruct r; intros m. Qed.
Lemma apply_to_space_effects si r : preserves effects (apply_to_space si r).
Proof. by destruct r; intros m. Qed.

End Frames.

Create HintDb frame discriminated.
#[export] Hint Resolve preserves_ret preserves_raise preserves_get_state
  put_space_recent put_space_window put_space_marks put_space_effects
  mark_updated_recent mark_updated_window mark_updated_spaces mark_updated_effects
  emit_recent emit_window emit_marks emit_spaces
  apply_to_space_recent apply_to_space_window apply_to_space_marks
  apply_to_space_effects : frame.

(** Walks through binds, conditionals and matches, closing the leaves from
    the [frame] database. *)
Ltac frame :=
  repeat first
    [ apply preserves_bind; [|intros ?]
    | apply preserves_if
    | apply preserves_try_except; [|intros ?]
    | solve [auto with frame]
    | match goal with
      | |- preserves _ (match ?x with _ => _ end) => destruct x
      end ].

Section Pipeline.
Context `{Env}.

Lemma security_recent si sp tag src t :
  preserves _recent_events (_handle_security_event si sp tag src t).
Proof. unfold _handle_security_event. frame. Qed.

Lemma security_window si sp tag src t :
  preserves _dedup_window (_handle_security_event si sp tag src t).
Proof. unfold _handle_security_event. frame. Qed.

Lemma scenario_recent sp ev tag :
  preserves _recent_events (_handle_scenario_event sp ev tag).
Proof. unfold _handle_scenario_event. frame. Qed.

Lemma scenario_window sp ev tag :
  preserves _dedup_window (_handle_scenario_event sp ev tag).
Proof. unfold _handle_scenario_event. frame. Qed.

Lemma scenario_marks sp ev tag :
  preserves _last_state_update (_handle_scenario_event sp ev tag).
Proof. unfold _handle_scenario_event. frame. Qed.

Lemma scenario_spaces sp ev tag :
  preserves spaces (_handle_scenario_event sp ev tag).
Proof. unfold _handle_scenario_event. frame. Qed.

Local Hint Resolve security_recent security_window scenario_recent scenario_window
  scenario_marks scenario_spaces : frame.

Lemma dispatch_recent si sp e t : preserves _recent_events (dispatch si sp e t).
Proof. unfold dispatch. frame. Qed.

Lemma dispatch_window si sp e t : preserves _dedup_window (dispatch si sp e t).
Proof. unfold dispatch. frame. Qed.

Local Hint Resolve dispatch_recent dispatch_window : frame.

Lemma process_recent e t : preserves _recent_events (process e t).
Proof. unfold process. frame. Qed.

Lemma process_window e t : preserves _dedup_window (process e t).
Proof. unfold process. frame. Qed.

End Pipeline.

(** ** De-duplication *)

Section Dedup.
Context `{Env}.

Lemma prune_lookup (now : Q) (recent : gmap string Q) (k : string) (t : Q) :
  prune now recent !! k = Some t <-> recent !! k = Some t /\ (now - t < 60)%Q.
Proof.
  unfold prune. rewrite map_lookup_filter_Some. simpl.
  rewrite Is_true_true, Qltb_lt. done.
Qed.

Lemma prune_keeps_now (now : Q) (recent : gmap string Q) (k : string) :
  prune now (<[k := now]> recent) !! k = Some now.
Proof. apply prune_lookup. split; [apply lookup_insert_eq | lra]. Qed.

Lemma recorded_lookup (m : Manager) (e : Event) (now : Q) :
  _recent_events (recorded m e now) !! event_key e = Some now.
Proof. apply prune_keeps_now. Qed.

Lemma deduplicate_suppressed (m : Manager) (e : Event) (now now_h : Q) :
  is_duplicate m e now = true -> deduplicate e now now_h m = (Val tt, m).
Proof.
  unfold is_duplicate, deduplicate, bind, get_state. simpl. by intros ->.
Qed.

Lemma deduplicate_passed (m : Manager) (e : Event) (now now_h : Q) :
  is_duplicate m e now = false ->
  deduplicate e now now_h m = process e now_h (recorded m e now).
Proof.
  unfold is_duplicate, deduplicate, bind, get_state. simpl. by intros ->.
Qed.

Lemma handle_event_not_normalized (m : Manager) p now now_h :
  normalize p = Val None \/ (exists ex, normalize p = Raise ex) ->
  _handle_event p now now_h m = (Val tt, m).
Proof.
  unfold _handle_event, try_except, handle_event_body.
  by intros [-> | [ex ->]].
Qed.

Lemma handle_event_suppressed m p e now now_h :
  normalize p = Val (Some e) -> is_duplicate m e now = true ->
  _handle_event p now now_h m = (Val tt, m).
Proof.
  intros Hn Hd. unfold _handle_event, try_except, handle_event_body.
  by rewrite Hn, deduplicate_suppressed.
Qed.

Lemma handle_event_passed m p e now now_h :
  normalize p = Val (Some e) -> is_duplicate m e now = false ->
  _handle_event p now now_h m = processed e now now_h m.
Proof.
  intros Hn Hd. unfold _handle_event, processed, try_except, handle_event_body.
  by rewrite Hn, deduplicate_passed.
Qed.

Lemma processed_recent e now now_h m :
  _recent_events (processed e now now_h m).2 = _recent_events (recorded m e now).
Proof.
  unfold processed.
  apply (preserves_try_except _recent_events); [apply process_recent|].
  intros ?. apply preserves_ret.
Qed.

Lemma processed_window e now now_h m :
  _dedup_window (processed e now now_h m).2 = _dedup_window m.
Proof.
  unfold processed.
  rewrite (preserves_try_except _dedup_window); [done|apply process_window|].
  intros ?. apply preserves_ret.
Qed.

Lemma is_duplicate_within m e now t :
  _recent_events m !! event_key e = Some t ->
  (now - t < _dedup_window m)%Q -> is_duplicate m e now = true.
Proof. unfold is_duplicate. intros -> Hlt. by apply Qltb_lt. Qed.

Lemma is_duplicate_beyond m e now t :
  _recent_events m !! event_key e = Some t ->
  (_dedup_window m <= now - t)%Q -> is_duplicate m e now = false.
Proof. unfold is_duplicate. intros -> Hge. by apply Qltb_ge. Qed.

Lemma passes_Some m p now e :
  passes m p now = Some e <-> normalize p = Val (Some e) /\ is_duplicate m e now = false.
Proof.
  unfold passes. destruct (normalize p) as [[e'|]|]; [|by split; [|intros []]..].
  destruct (is_duplicate m e' now) eqn:Hd; split.
  - done.
  - intros [[= ->] ?]. congruence.
  - intros [= ->]. done.
  - by intros [[= ->] _].
Qed.

Lemma deliver_passes m p now now_h e :
  passes m p now = Some e ->
  _recent_events (deliver m p now now_h) = _recent_events (recorded m e now).
Proof.
  intros [Hn Hd]%passes_Some. unfold deliver.
  rewrite (handle_event_passed _ _ e) by done. apply processed_recent.
Qed.

Lemma deliver_not_passes m p now now_h :
  passes m p now = None -> deliver m p now now_h = m.
Proof.
  unfold passes, deliver. destruct (normalize p) as [[e|]|ex] eqn:Hn.
  - destruct (is_duplicate m e now) eqn:Hd; [|done].
    intros _. by rewrite (handle_event_suppressed _ _ e).
  - intros _. rewrite handle_event_not_normalized; [done | by left].
  - intros _. rewrite handle_event_not_normalized; [done | right; by eexists].
Qed.

Lemma deliver_window m p now now_h :
  _dedup_window (deliver m p now now_h) = _dedup_window m.
Proof.
  destruct (passes m p now) as [e|] eqn:Hp.
  - apply passes_Some in Hp as [Hn Hd]. unfold deliver.
    rewrite (handle_event_passed _ _ e) by done. apply processed_window.
  - by rewrite deliver_not_passes.
Qed.

Lemma run_window m ds : _dedup_window (run m ds) = _dedup_window m.
Proof.
  revert m. induction ds as [|[[p now] h] rest IH]; intros m; simpl; [done|].
  by rewrite IH, deliver_window.
Qed.

(** A record stays put, or is pruned, as long as no delivery is processed
    under its key; it stays put while the clock is less than 60 seconds
    past it. *)
Lemma record_kept_or_pruned m ds key t :
  _recent_events m !! key = Some t \/ _recent_events m !! key = None ->
  last_processed m ds key = None ->
  _recent_events (run m ds) !! key = Some t \/ _recent_events (run m ds) !! key = None.
Proof.
  revert m. induction ds as [|[[p now] h] rest IH]; intros m Hrec Hlast; [done|].
  simpl in *. destruct (last_processed (deliver m p now h) rest key) eqn:Hrest; [done|].
  apply IH; [|done].
  destruct (passes m p now) as [e|] eqn:Hp; [|by rewrite deliver_not_passes].
  destruct (String.eqb (event_key e) key) eqn:Hk; [done|]. apply String.eqb_neq in Hk.
  rewrite (deliver_passes _ _ _ _ e) by done. simpl.
  destruct (prune now (<[event_key e:=now]> (_recent_events m)) !! key) as [t'|] eqn:Hl;
    [|by right].
  apply prune_lookup in Hl as [Hl _]. rewrite lookup_insert_ne in Hl by done.
  destruct Hrec; [left|]; congruence.
Qed.

Lemma record_kept m ds key t now :
  _recent_events m !! key = Some t ->
  last_processed m ds key = None ->
  arrived_by now ds -> (now - t < 60)%Q ->
  _recent_events (run m ds) !! key = Some t.
Proof.
  revert m. induction ds as [|[[p r] h] rest IH]; intros m Hrec Hlast Hby Hlt; [done|].
  simpl in *. destruct (last_processed (deliver m p r h) rest key) eqn:Hrest; [done|].
  apply Forall_cons in Hby as [Hr Hby]. simpl in Hr.
  apply IH; [|done..].
  destruct (passes m p r) as [e|] eqn:Hp; [|by rewrite deliver_not_passes].
  destruct (String.eqb (event_key e) key) eqn:Hk; [done|]. apply String.eqb_neq in Hk.
  rewrite (deliver_passes _ _ _ _ e) by done. simpl.
  apply prune_lookup. rewrite lookup_insert_ne by done. split; [done | lra].
Qed.

(** The cache agrees with the history: the time of the last delivery
    processed under a key is on record as long as the clock is less than 60
    seconds past it, and no other time is ever on record for the key. *)
Lemma last_processed_on_record m ds key t :
  last_processed m ds key = Some t ->
  (_recent_events (run m ds) !! key = Some t \/ _recent_events (run m ds) !! key = None)
  /\ forall now, arrived_by now ds -> (now - t < 60)%Q ->
       _recent_events (run m ds) !! key = Some t.
Proof.
  revert m. induction ds as [|[[p r] h] rest IH]; intros m Hlast; [done|].
  simpl in *.
  destruct (last_processed (deliver m p r h) rest key) as [t'|] eqn:Hrest.
  - injection Hlast as ->. destruct (IH _ Hrest) as [Hor Hkept]. split; [done|].
    intros now [_ Hby]%Forall_cons. by apply Hkept.
  - destruct (passes m p r) as [e|] eqn:Hp; [|done].
    destruct (String.eqb (event_key e) key) eqn:Hk; [|done].
    apply String.eqb_eq in Hk as <-. injection Hlast as <-.
    assert (Hrec : _recent_events (deliver m p r h) !! event_key e = Some r).
    { rewrite (deliver_passes _ _ _ _ e) by done. apply recorded_lookup. }
    split.
    + apply record_kept_or_pruned; [by left | done].
    + intros now [_ Hby]%Forall_cons Hlt. by eapply record_kept.
Qed.

Lemma passed_records m p e now now_h :
  normalize p = Val (Some e) -> is_duplicate m e now = false ->
  _handle_event p now now_h m = processed e now now_h m
  /\ _recent_events (deliver m p now now_h) !! event_key e = Some now.
Proof.
  intros Hn Hd. split; [by apply handle_event_passed|].
  unfold deliver. rewrite (handle_event_passed _ _ e) by done.
  rewrite processed_recent. apply recorded_lookup.
Qed.

(** C2. Let a delivery have the key of [e], and let [t] be the arrival time
    of the last delivery processed under that key, read off the cache (first
    part), or off the history of deliveries the manager handled, whose clock
    readings are not later than [now] (second part; the window is at most
    the 60 seconds of retention). A delivery at [now] with [now - t] below
    the window is suppressed: the manager (model, marks, cache with [t] still
    on record, effects) is exactly as before. A delivery with [now - t] above
    the window, or equal to it, goes on to hub lookup and dispatch and puts
    its own arrival time on record. Hence (third part), of two identical
    deliveries of which the first is processed at [t1], the second at [t2]
    changes nothing when [t2 - t1] is below the window and is processed in
    its turn when it is not. *)
Theorem dedup_window (m : Manager) (p : gmap string pyval) (e : Event)
    (t now now_h t1 h1 t2 h2 : Q) (history : list (gmap string pyval * Q * Q)) :
  normalize p = Val (Some e) ->
  (_recent_events m !! event_key e = Some t ->
     ((now - t < _dedup_window m)%Q -> _handle_event p now now_h m = (Val tt, m))
     /\ ((_dedup_window m <= now - t)%Q ->
         _handle_event p now now_h m = processed e now now_h m
         /\ _recent_events (deliver m p now now_h) !! event_key e = Some now))
  /\ (last_processed m history (event_key e) = Some t ->
      arrived_by now history -> (_dedup_window m <= 60)%Q ->
      let m' := run m history in
      ((now - t < _dedup_window m)%Q -> _handle_event p now now_h m' = (Val tt, m'))
      /\ ((_dedup_window m <= now - t)%Q -> (_dedup_window m <= now)%Q ->
          _handle_event p now now_h m' = processed e now now_h m'
          /\ _recent_events (deliver m' p now now_h) !! event_key e = Some now))
  /\ (is_duplicate m e t1 = false ->
      let m1 := deliver m p t1 h1 in
      _handle_event p t1 h1 m = processed e t1 h1 m
      /\ ((t2 - t1 < _dedup_window m)%Q -> _handle_event p t2 h2 m1 = (Val tt, m1))
      /\ ((_dedup_window m <= t2 - t1)%Q ->
          _handle_event p t2 h2 m1 = processed e t2 h2 m1
          /\ _recent_events (deliver m1 p t2 h2) !! event_key e = Some t2)).
Proof.
  intros Hn. split; [|split].
  - intros Hrec. split.
    + intros Hlt. eapply handle_event_suppressed; [done|].
      by eapply is_duplicate_within.
    + intros Hge. apply passed_records; [done|]. by eapply is_duplicate_beyond.
  - intros Hlast Hby Hw m'.
    destruct (last_processed_on_record _ _ _ _ Hlast) as [Hor Hkept].
    fold m' in Hor, Hkept.
    assert (Hwin : _dedup_window m' = _dedup_window m) by apply run_window.
    split.
    + intros Hlt. eapply handle_event_suppressed; [done|].
      eapply is_duplicate_within; [apply (Hkept now); [done | lra]|].
      by rewrite Hwin.
    + intros Hge Hnow. apply passed_records; [done|].
      unfold is_duplicate. rewrite Hwin.
      destruct Hor as [-> | ->]; simpl; apply Qltb_ge; lra.
  - intros Hfirst m1.
    destruct (passed_records m p e t1 h1 Hn Hfirst) as [Hrun Hrec1].
    fold m1 in Hrec1.
    assert (Hwin : _dedup_window m1 = _dedup_window m) by apply deliver_window.
    split; [done|]. split.
    + intros Hlt. eapply handle_event_suppressed; [done|].
      eapply is_duplicate_within; [done|]. by rewrite Hwin.
    + intros Hge. apply passed_records; [done|].
      eapply is_duplicate_beyond; [done|]. by rewrite Hwin.
Qed.

End Dedup.

Lemma dedup_window_witness :
  let m1 := deliver sample_manager door_opened_D1 1000 1000 in
  let m2 := deliver m1 door_opened_D1 1006 1006 in
  let m3 := deliver m1 disarm_by_alice 1002 1002 in
  device_attr m1 0 0 "door_opened_at" = Some (PStr "1000")
  /\ _handle_event door_opened_D1 1001 1001 m1 = (Val tt, m1)
  /\ _recent_events m2 !! "D1:dooropened:TRIGGERED" = Some 1006%Q
  /\ device_attr m2 0 0 "door_opened_at" = Some (PStr "1006")
  /\ _handle_event door_opened_D1 1003 1003 m3 = (Val tt, m3).
Proof.
  intros m1 m2 m3.
  destruct (dedup_window sample_manager door_opened_D1 door_opened_D1_event
              0 1000 1000 1000 1000 1001 1001 []) as (_ & _ & Hnear); [reflexivity|].
  destruct (dedup_window sample_manager door_opened_D1 door_opened_D1_event
              0 1000 1000 1000 1000 1006 1006 []) as (_ & _ & Hfar); [reflexivity|].
  destruct (dedup_window sample_manager door_opened_D1 door_opened_D1_event
              1000 1003 1003 0 0 0 0
              [(door_opened_D1, 1000%Q, 1000%Q); (disarm_by_alice, 1002%Q, 1002%Q)])
    as (_ & Hhist & _); [reflexivity|].
  split; [reflexivity|]. split; [|split; [|split; [reflexivity|]]].
  - apply Hnear; [reflexivity|]. simpl. lra.
  - apply Hfar; [reflexivity|]. simpl. lra.
  - apply Hhist; [reflexivity | | simpl; lra | simpl; lra].
    repeat constructor; simpl; lra.
Defined.

(** ** Deliveries that are dropped *)

Section Drops.
Context `{Env}.

Lemma find_space_lookup (sps : list (string * Space)) hub si sp :
  find_space sps hub = Some (si, sp) -> exists k, sps !! si = Some (k, sp).
Proof.
  unfold find_space.
  destruct (list_find _ sps) as [[j [k sp']]|] eqn:Hfind; simpl; [|done].
  intros ?; simplify_eq. apply list_find_Some in Hfind as (Hl & _). eauto.
Qed.

Lemma alter_same {A} (f : A -> A) (l : list A) (i : nat) (x : A) :
  l !! i = Some x -> f x = x -> alter f i l = l.
Proof.
  intros Hl Hf. apply list_eq. intros j.
  destruct (decide (i = j)) as [<-|Hne].
  - rewrite list_lookup_alter_eq, Hl. simpl. by rewrite Hf.
  - by apply list_lookup_alter_ne.
Qed.

Lemma put_space_same (m : Manager) si k sp :
  spaces m !! si = Some (k, sp) -> put_space si sp m = (Val tt, m).
Proof.
  intros Hl. unfold put_space, modify. destruct m as [sps marks recent w effs].
  simpl in *. do 2 f_equal. by eapply alter_same.
Qed.

Lemma has_key_true {V} (k : string) (table : gmap string V) :
  has_key k table = true -> exists v, table !! k = Some v.
Proof. unfold has_key. destruct (table !! k); [eauto | done]. Qed.

Lemma process_unknown_hub (m : Manager) e t :
  find_space (spaces m) (hub_id e) = None -> process e t m = (Val tt, m).
Proof. unfold process, bind, get_state. by intros ->. Qed.

Lemma dispatch_unhandled (m : Manager) si sp e t :
  is_unhandled_tag (event_tag e) -> dispatch si sp e t m = (Val tt, m).
Proof.
  intros (Hsec & Hdev & Hscen). unfold dispatch. rewrite Hsec.
  repeat (apply orb_false_elim in Hdev as [Hdev ?]).
  repeat match goal with Hk : has_key _ _ = false |- _ => rewrite Hk; clear Hk end.
  by rewrite bool_decide_eq_false_2.
Qed.

Lemma dispatch_unresolved (m : Manager) si k sp e t :
  is_device_tag (event_tag e) ->
  _find_device (sp_devices sp) (source_name e) (source_id e) = Val None ->
  spaces m !! si = Some (k, sp) ->
  dispatch si sp e t m = (Val tt, m).
Proof.
  intros (Hsec & Hdev) Hfind Hl. unfold dispatch. rewrite Hsec.
  repeat match goal with
  | |- context [has_key ?tag ?table] =>
      let Hk := fresh "Hk" in
      destruct (has_key tag table) eqn:Hk;
      [ apply has_key_true in Hk as [[? ?] Hk];
        unfold _handle_door_event, _handle_motion_event, _handle_smoke_event,
          _handle_flood_event, _handle_glass_event, _handle_tamper_event,
          _handle_device_status_event, _handle_relay_event;
        rewrite Hk, (on_device_unresolved _ _ _ _ Hfind);
        by eapply put_space_same
      | ]
  end.
  discriminate Hdev.
Qed.

Lemma process_dropped (m : Manager) e t :
  dropped m e -> spaces (process e t m).2 = spaces m.
Proof.
  intros [Hnone | (si & sp & Hfind & Hdrop)].
  - by rewrite process_unknown_hub.
  - unfold process, bind, get_state. rewrite Hfind.
    destruct (find_space_lookup _ _ _ _ Hfind) as [k Hl].
    destruct Hdrop as [Hun | [Hdev Hres]].
    + by rewrite dispatch_unhandled.
    + by erewrite dispatch_unresolved.
Qed.

Lemma processed_dropped (m : Manager) e now now_h :
  dropped m e -> spaces (processed e now now_h m).2 = spaces m.
Proof.
  intros Hdrop. unfold processed, try_except.
  pose proof (process_dropped (recorded m e now) e now_h Hdrop) as Hsp.
  by destruct (process e now_h (recorded m e now)) as [[[]|ex] m'].
Qed.

(** C10. A delivery that passes de-duplication has its arrival time on
    record, in the pruned cache, whatever lines 218-266 then do with it,
    also when they raise. So when it is dropped without touching the model
    (unknown hub, unhandled tag, unresolved device), an identical delivery
    within the window is still suppressed. *)
Theorem dropped_delivery_arms_window (m : Manager) (p : gmap string pyval)
    (e : Event) (t1 h1 t2 h2 : Q) :
  normalize p = Val (Some e) ->
  is_duplicate m e t1 = false ->
  let m1 := deliver m p t1 h1 in
  (handle_event_body p t1 h1 m).2 = m1
  /\ _recent_events m1 = prune t1 (<[event_key e := t1]> (_recent_events m))
  /\ _recent_events m1 !! event_key e = Some t1
  /\ (dropped m e -> spaces m1 = spaces m)
  /\ ((t2 - t1 < _dedup_window m)%Q -> _handle_event p t2 h2 m1 = (Val tt, m1)).
Proof.
  intros Hn Hd m1.
  assert (Hrun : _handle_event p t1 h1 m = processed e t1 h1 m)
    by by apply handle_event_passed.
  assert (Hrec : _recent_events m1 = _recent_events (recorded m e t1)).
  { subst m1. unfold deliver. rewrite Hrun. apply processed_recent. }
  split; [|split; [|split; [|split]]].
  - subst m1. unfold deliver, _handle_event, try_except.
    by destruct (handle_event_body p t1 h1 m) as [[[]|ex] m'].
  - done.
  - rewrite Hrec. apply recorded_lookup.
  - intros Hdrop. subst m1. unfold deliver. rewrite Hrun.
    by apply processed_dropped.
  - intros Hlt. eapply handle_event_suppressed; [done|].
    eapply is_duplicate_within.
    + rewrite Hrec. apply recorded_lookup.
    + subst m1. unfold deliver. rewrite Hrun, processed_window. done.
Qed.

End Drops.

Lemma dropped_delivery_arms_window_witness :
  let m1 := deliver sample_manager door_opened_unknown_device 1000 1000 in
  spaces m1 = spaces sample_manager
  /\ _recent_events m1 !! "D9:dooropened:TRIGGERED" = Some 1000%Q
  /\ _handle_event door_opened_unknown_device 1002 1002 m1 = (Val tt, m1).
Proof.
  intros m1.
  destruct (dropped_delivery_arms_window sample_manager door_opened_unknown_device
              door_opened_unknown_device_event 1000 1000 1002 1002)
    as (_ & _ & Hrec & Hsame & Hnext); [reflexivity | reflexivity |].
  split; [|split].
  - apply Hsame. right. exists 0%nat, home. split; [reflexivity|].
    right. split; [|reflexivity]. split; reflexivity.
  - apply Hrec.
  - apply Hnext. simpl. lra.
Defined.

(** ** Malformed payloads and exceptions *)

Section Isolation.
Context `{Env}.

(** C8. A payload whose event record (the value under ["event"], or the
    payload itself when there is no such key) has no [eventTag], an empty
    [eventTag], or no [hubId] leaves the manager exactly as it was: no model
    mutation, no cache or mark update, no effect, and the handler returns
    normally. *)
Theorem missing_tag_or_hub_dropped (m : Manager) (p ev : gmap string pyval)
    (now now_h : Q) :
  dict_get p "event" (PDict p) = PDict ev ->
  ev !! "eventTag" = None \/ ev !! "eventTag" = Some (PStr "") \/ ev !! "hubId" = None ->
  _handle_event p now now_h m = (Val tt, m).
Proof.
  intros Hev Hmiss. apply handle_event_not_normalized.
  unfold normalize. rewrite Hev.
  destruct Hmiss as [Htag | [Htag | Hhub]].
  - left. unfold dict_get at 1. by rewrite Htag.
  - left. unfold dict_get at 1. by rewrite Htag.
  - destruct (dict_get ev "eventTag" (PStr "")); try (right; by eexists).
    left. unfold dict_get at 1. rewrite Hhub. simpl. by rewrite orb_true_r.
Qed.

(** C9. [_handle_event] returns normally on every payload, in every state
    and at every clock reading; an exception raised by the body is caught
    there, leaving the manager as the body left it; and so every delivery of
    a sequence is handled, whatever the earlier ones did. *)
Theorem handle_event_never_raises (m : Manager) (p : gmap string pyval)
    (now now_h : Q) (deliveries : list (gmap string pyval * Q * Q)) :
  (_handle_event p now now_h m).1 = Val tt
  /\ (forall ex m', handle_event_body p now now_h m = (Raise ex, m') ->
        _handle_event p now now_h m = (Val tt, m'))
  /\ handle_all deliveries m = (Val tt, run m deliveries).
Proof.
  assert (Hret : forall m0 p0 t h, (_handle_event p0 t h m0).1 = Val tt).
  { intros m0 p0 t h. unfold _handle_event, try_except.
    by destruct (handle_event_body p0 t h m0) as [[[]|ex] m']. }
  split; [apply Hret|]. split.
  - intros ex m' Hbody. unfold _handle_event, try_except. by rewrite Hbody.
  - clear p now now_h. revert m.
    induction deliveries as [|[[p0 t] h] rest IH]; intros m; [done|].
    simpl. unfold bind. specialize (Hret m p0 t h). unfold deliver.
    destruct (_handle_event p0 t h m) as [o m']. simpl in *. subst o.
    apply IH.
Qed.

End Isolation.

Lemma missing_tag_or_hub_dropped_witness :
  _handle_event untagged 1000 1000 sample_manager = (Val tt, sample_manager).
Proof.
  apply (missing_tag_or_hub_dropped sample_manager untagged untagged);
    [reflexivity | left; reflexivity].
Defined.

Lemma handle_event_never_raises_witness :
  handle_event_body numeric_tag 1000 1000 sample_manager
    = (Raise AttributeError, sample_manager)
  /\ _handle_event numeric_tag 1000 1000 sample_manager = (Val tt, sample_manager).
Proof.
  assert (Hbody : handle_event_body numeric_tag 1000 1000 sample_manager
                  = (Raise AttributeError, sample_manager)) by reflexivity.
  split; [exact Hbody|].
  destruct (handle_event_never_raises sample_manager numeric_tag 1000 1000 [])
    as (_ & Hcaught & _).
  apply (Hcaught AttributeError). exact Hbody.
Defined.

(** ** Security events *)

Section Security.
Context `{Env}.

Lemma notifications_app (es es' : list effect) :
  notifications (es ++ es') = notifications es ++ notifications es'.
Proof. apply omap_app. Qed.

Lemma security_notification (m : Manager) si space tag src t st :
  EVENT_TAG_TO_STATE !! tag = Some st ->
  let who := if get_pending_ha_action (sp_hub_id space)
             then PStr "Home Assistant" else src in
  exists m',
    _handle_security_event si space tag src t m = (Val tt, m')
    /\ notifications (effects m')
       = notifications (effects m) ++ [(state_value st, who, sp_name space)].
Proof.
  intros Htab who. unfold _handle_security_event. rewrite Htab.
  unfold bind, emit, put_space, mark_updated, modify, ret.
  destruct (String.eqb tag "grouparm" || String.eqb tag "groupdisarm");
    destruct (negb (bool_decide (sp_security_state space = st)));
    simpl; (eexists; split; [reflexivity|]); simpl;
    rewrite !notifications_app; simpl; by rewrite ?app_nil_r.
Qed.

(** C7. A delivery that reaches dispatch with a tag of the security table
    adds exactly one audit notification to the trace, whatever the state of
    the space was; its source name is ["Home Assistant"] when an action of
    the automation system is pending for the hub, and the reported source
    name otherwise. *)
Theorem security_event_notifies_once (m : Manager) (p : gmap string pyval)
    (e : Event) (now now_h : Q) (si : nat) (space : Space) (st : SecurityState) :
  normalize p = Val (Some e) ->
  is_duplicate m e now = false ->
  find_space (spaces m) (hub_id e) = Some (si, space) ->
  EVENT_TAG_TO_STATE !! event_tag e = Some st ->
  let who := if get_pending_ha_action (sp_hub_id space)
             then PStr "Home Assistant" else source_name e in
  notifications (effects (deliver m p now now_h))
  = notifications (effects m) ++ [(state_value st, who, sp_name space)].
Proof.
  intros Hn Hd Hfind Htab who.
  unfold deliver. rewrite (handle_event_passed _ _ e) by done.
  unfold processed, try_except, process, bind, get_state. simpl.
  rewrite Hfind. unfold dispatch, has_key. rewrite Htab.
  destruct (security_notification (recorded m e now) si space (event_tag e)
              (source_name e) now_h st Htab) as (m' & -> & Hnote).
  simpl. rewrite notifications_app, Hnote. simpl. by rewrite app_nil_r.
Qed.

End Security.

Lemma security_event_notifies_once_witness :
  notifications (effects (deliver sample_manager arm_by_bob 1000 1000))
    = [("armed", PStr "Bob", "Home")]
  /\ notifications (effects (deliver sample_manager disarm_office 1000 1000))
     = [("disarmed", PStr "Home Assistant", "Office")].
Proof.
  split.
  - apply (security_event_notifies_once sample_manager arm_by_bob arm_by_bob_event
             1000 1000 0 home ARMED); reflexivity.
  - apply (security_event_notifies_once sample_manager disarm_office
             disarm_office_event 1000 1000 1 office DISARMED); reflexivity.
Defined.

(** ** Protection marks *)

Section Marks.
Context `{Env}.

Lemma dispatch_device_marks (m : Manager) si space e t :
  has_key (event_tag e) EVENT_TAG_TO_STATE = false ->
  _last_state_update (dispatch si space e t m).2 = _last_state_update m.
Proof.
  intros Hsec. revert m. change (preserves _last_state_update (dispatch si space e t)).
  unfold dispatch. rewrite Hsec.
  pose proof scenario_marks. frame.
Qed.

(** C1, as the code has it. The security handler is the one handler that
    marks the hub: when it assigns [security_state] (the mapped state differs
    from the current one and the event is not a group arm or disarm) it sets
    the hub's mark to the current time, and the hub is reported protected for
    the 5 seconds that follow; when it assigns nothing it leaves the marks
    alone. The device handlers (door, motion, smoke, flood, glass, tamper,
    device status, relay) never touch the marks. *)
Theorem protection_mark_follows_security_state (m : Manager) (si : nat)
    (space : Space) (tag : string) (src : pyval) (now_h : Q) (e : Event) :
  let m' := (_handle_security_event si space tag src now_h m).2 in
  (forall st,
     EVENT_TAG_TO_STATE !! tag = Some st -> sp_security_state space <> st ->
     tag <> "grouparm" -> tag <> "groupdisarm" ->
     spaces m' = alter (fun ks => (ks.1, set_space_state st space)) si (spaces m)
     /\ _last_state_update m' !! sp_hub_id space = Some now_h
     /\ forall t, (t - now_h < 5)%Q -> is_state_protected m' (sp_hub_id space) t = true)
  /\ (EVENT_TAG_TO_STATE !! tag = None
      \/ EVENT_TAG_TO_STATE !! tag = Some (sp_security_state space)
      \/ tag = "grouparm" \/ tag = "groupdisarm" ->
      spaces m' = spaces m /\ _last_state_update m' = _last_state_update m)
  /\ (has_key (event_tag e) EVENT_TAG_TO_STATE = false ->
      _last_state_update (dispatch si space e now_h m).2 = _last_state_update m).
Proof.
  intros m'. split; [|split].
  - intros st Htab Hneq Hga Hgd. subst m'.
    unfold _handle_security_event. rewrite Htab.
    apply String.eqb_neq in Hga, Hgd. rewrite Hga, Hgd.
    rewrite bool_decide_eq_false_2 by done. simpl.
    split; [done|]. split; [apply lookup_insert_eq|].
    intros t Hlt. unfold is_state_protected. simpl.
    rewrite lookup_insert_eq. simpl. by apply Qltb_lt.
  - intros Hcase. subst m'. unfold _handle_security_event.
    destruct (EVENT_TAG_TO_STATE !! tag) as [st|] eqn:Htab; [|done].
    destruct Hcase as [? | [Hsame | [-> | ->]]]; [done| | |].
    + injection Hsame as ->. rewrite bool_decide_eq_true_2 by done.
      by destruct (String.eqb tag "grouparm" || String.eqb tag "groupdisarm").
    + by destruct (negb (bool_decide (sp_security_state space = st))).
    + by destruct (negb (bool_decide (sp_security_state space = st))).
  - apply dispatch_device_marks.
Qed.

End Marks.

Lemma protection_mark_follows_security_state_witness :
  let m' := (_handle_security_event 0 home "disarm" (PStr "Alice") 1001
               sample_manager).2 in
  _last_state_update m' !! "H1" = Some 1001%Q
  /\ is_state_protected m' "H1" 1004 = true
  /\ _last_state_update
       (dispatch 0 home door_opened_D1_event 1000 sample_manager).2 = ∅.
Proof.
  intros m'.
  destruct (protection_mark_follows_security_state sample_manager 0 home "disarm"
              (PStr "Alice") 1001 door_opened_D1_event) as (Hmark & _ & Hdev).
  destruct (Hmark DISARMED) as (_ & Hat & Hprot);
    [reflexivity | discriminate | discriminate | discriminate |].
  split; [exact Hat|]. split.
  - apply Hprot. lra.
  - apply Hdev. reflexivity.
Defined.

(** C1 as stated fails on every device category. A door event on a resolved
    device writes the device's [door_opened], and the hub has no mark and is
    not reported protected at the time of the write. *)
Lemma door_write_leaves_hub_unprotected :
  let m' := deliver sample_manager door_opened_D1 1000 1000 in
  dev_attributes front_door !! "door_opened" = None
  /\ (exists sp d,
        spaces m' !! 0%nat = Some ("s1", sp)
        /\ sp_hub_id sp = "H1"
        /\ sp_devices sp !! 0%nat = Some ("D1", d)
        /\ dev_attributes d !! "door_opened" = Some (PBool true))
  /\ _last_state_update m' !! "H1" = None
  /\ is_state_protected m' "H1" 1000 = false.
Proof.
  intros m'. split; [reflexivity|]. split; [|split; reflexivity].
  eexists _, _. repeat split; reflexivity.
Qed.

(** ** The manager at work on the sample installation *)

(** A disarm reported by Alice on the armed space of hub [H1]: the space is
    disarmed, the hub is marked at the handler's clock reading, and there is
    one notification, in Alice's name. *)
Example disarm_by_alice_run :
  let m' := deliver sample_manager disarm_by_alice 1000 1001 in
  (sp_security_state <$> (snd <$> spaces m' !! 0%nat)) = Some DISARMED
  /\ _last_state_update m' !! "H1" = Some 1001%Q
  /\ effects m' = [CreateNotification "disarmed" (PStr "Alice") "Home"; SetUpdatedData].
Proof. repeat split; reflexivity. Qed.

(** A short source id that is the tail of a 16-character device id resolves
    to that device. *)
Example wire_input_by_suffix :
  _find_device (sp_devices home) (PStr "") (PStr "44556677")
  = Val (Some (1%nat, wire_input)).
Proof. reflexivity. Qed.

(** A tag of no table changes neither the model nor the marks, and nothing
    is raised; the delivery is on record all the same. *)
Example unknown_tag_run :
  let foobar := payload [("eventTag", PStr "foobar"); ("hubId", PStr "H1")] in
  let r := _handle_event foobar 1000 1000 sample_manager in
  r.1 = Val tt
  /\ spaces r.2 = spaces sample_manager
  /\ _last_state_update r.2 = ∅
  /\ _recent_events r.2 !! ":foobar:TRIGGERED" = Some 1000%Q.
Proof. repeat split; reflexivity. Qed.

(** * Further properties of the manager *)

(** ** What a delivery can do to the model *)

Lemma device_updated_refl (d : Device) : device_updated d d.
Proof. by repeat split. Qed.

Lemma device_updated_trans (d1 d2 d3 : Device) :
  device_updated d1 d2 -> device_updated d2 d3 -> device_updated d1 d3.
Proof.
  intros (Hi1 & Hn1 & Hk1 & Ho1) (Hi2 & Hn2 & Hk2 & Ho2). repeat split.
  - congruence.
  - congruence.
  - intros k Hk. by apply Hk2, Hk1.
  - intros k Hk. by rewrite Ho2, Ho1.
Qed.

Lemma set_attr_updated (k : string) (v : pyval) (d : Device) :
  k ∈ sse_attribute_keys -> device_updated d (set_attr k v d).
Proof.
  intros Hk. repeat split; simpl.
  - intros k' Hk'. destruct (decide (k = k')) as [<-|Hne].
    + rewrite lookup_insert_eq. eauto.
    + by rewrite lookup_insert_ne.
  - intros k' Hk'. apply lookup_insert_ne. by intros <-.
Qed.

Lemma set_online_updated (b : bool) (d : Device) : device_updated d (set_online b d).
Proof. by repeat split. Qed.

Section Updates.
Context `{Env}.

Lemma space_updated_refl (sp : Space) : space_updated sp sp.
Proof.
  repeat split. apply Forall2_same_length_lookup_2; [done|].
  intros i x y Hx Hy. simplify_eq. split; [done | apply device_updated_refl].
Qed.

Lemma model_updated_refl (sps : list (string * Space)) : model_updated sps sps.
Proof.
  apply Forall2_same_length_lookup_2; [done|].
  intros i x y Hx Hy. simplify_eq. split; [done | apply space_updated_refl].
Qed.

Lemma space_updated_trans (s1 s2 s3 : Space) :
  space_updated s1 s2 -> space_updated s2 s3 -> space_updated s1 s3.
Proof.
  intros (Hh1 & Hn1 & Hd1) (Hh2 & Hn2 & Hd2). repeat split; [congruence..|].
  eapply Forall2_trans; [|done..].
  intros x y z [Hk1 Hu1] [Hk2 Hu2]. split; [congruence|].
  by eapply device_updated_trans.
Qed.

Lemma model_updated_trans (l1 l2 l3 : list (string * Space)) :
  model_updated l1 l2 -> model_updated l2 l3 -> model_updated l1 l3.
Proof.
  intros H1 H2. eapply Forall2_trans; [|done..].
  intros x y z [Hk1 Hu1] [Hk2 Hu2]. split; [congruence|].
  by eapply space_updated_trans.
Qed.

Lemma update_device_updated (sp : Space) (i : nat) (f : Device -> Device) :
  (forall d, device_updated d (f d)) -> space_updated sp (update_device i f sp).
Proof.
  intros Hf. repeat split. simpl.
  apply Forall2_same_length_lookup_2; [by rewrite length_alter|].
  intros j x y Hx Hy. destruct (decide (i = j)) as [<-|Hne].
  - rewrite list_lookup_alter_eq, Hx in Hy. simpl in Hy. simplify_eq.
    destruct x as [k d]. simpl. split; [done | apply Hf].
  - rewrite list_lookup_alter_ne in Hy by done. simplify_eq.
    split; [done | apply device_updated_refl].
Qed.

Lemma on_device_updated (sp sp' : Space) source_name source_id f :
  (forall d, device_updated d (f d)) ->
  on_device sp source_name source_id f = Val sp' -> space_updated sp sp'.
Proof.
  intros Hf. unfold on_device.
  destruct (_find_device (sp_devices sp) source_name source_id) as [[[i d]|]|]; [| |done].
  - intros [= <-]. by apply update_device_updated.
  - intros [= <-]. apply space_updated_refl.
Qed.

Lemma put_space_updated (m : Manager) si k sp sp' :
  spaces m !! si = Some (k, sp) -> space_updated sp sp' ->
  model_updated (spaces m) (spaces (put_space si sp' m).2).
Proof.
  intros Hl Hup. simpl.
  apply Forall2_same_length_lookup_2; [by rewrite length_alter|].
  intros j x y Hx Hy. destruct (decide (si = j)) as [<-|Hne].
  - rewrite list_lookup_alter_eq, Hx in Hy. simpl in Hy. simplify_eq. done.
  - rewrite list_lookup_alter_ne in Hy by done. simplify_eq.
    split; [done | apply space_updated_refl].
Qed.

Lemma apply_to_space_updated (m : Manager) si k sp r :
  spaces m !! si = Some (k, sp) ->
  (forall sp', r = Val sp' -> space_updated sp sp') ->
  model_updated (spaces m) (spaces (apply_to_space si r m).2).
Proof.
  intros Hl Hr. destruct r as [sp'|ex]; simpl.
  - by eapply put_space_updated; [|apply Hr].
  - apply model_updated_refl.
Qed.

Lemma security_updated (m : Manager) si k sp tag src t :
  spaces m !! si = Some (k, sp) ->
  model_updated (spaces m) (spaces (_handle_security_event si sp tag src t m).2).
Proof.
  intros Hl. unfold _handle_security_event.
  destruct (EVENT_TAG_TO_STATE !! tag) as [st|]; [|apply model_updated_refl].
  unfold bind, emit, mark_updated, modify, ret.
  destruct (String.eqb tag "grouparm" || String.eqb tag "groupdisarm");
    destruct (negb (bool_decide (sp_security_state sp = st))); simpl;
    try apply model_updated_refl.
  apply (put_space_updated m si k sp); [done|].
  repeat split. simpl. apply space_updated_refl.
Qed.

Ltac sse_key := unfold sse_attribute_keys; set_solver.

Lemma dispatch_updated (m : Manager) si k sp e t :
  spaces m !! si = Some (k, sp) ->
  model_updated (spaces m) (spaces (dispatch si sp e t m).2).
Proof.
  intros Hl. unfold dispatch.
  destruct (has_key (event_tag e) EVENT_TAG_TO_STATE); [by eapply security_updated|].
  repeat match goal with
  | |- context [if has_key ?tag ?table then _ else _] =>
      destruct (has_key tag table);
      [ eapply apply_to_space_updated; [done|];
        unfold _handle_door_event, _handle_motion_event, _handle_smoke_event,
          _handle_flood_event, _handle_glass_event, _handle_tamper_event,
          _handle_device_status_event, _handle_relay_event;
        destruct (_ !! event_tag e) as [[label flag]|]; [|done];
        intros sp'; apply on_device_updated; intros d;
        repeat match goal with
        | |- context [if ?b then _ else _] => destruct b
        end;
        first
          [ apply device_updated_refl
          | apply set_online_updated
          | eapply device_updated_trans; apply set_attr_updated; sse_key
          | apply set_attr_updated; sse_key ]
      | ]
  end.
  destruct (bool_decide _); [|apply model_updated_refl].
  rewrite scenario_spaces. apply model_updated_refl.
Qed.

End Updates.

Section Deliveries.
Context `{Env}.

Lemma process_updated (m : Manager) e t :
  model_updated (spaces m) (spaces (process e t m).2).
Proof.
  unfold process, bind, get_state.
  destruct (find_space (spaces m) (hub_id e)) as [[si sp]|] eqn:Hfind;
    [|apply model_updated_refl].
  destruct (find_space_lookup _ _ _ _ Hfind) as [k Hl].
  pose proof (dispatch_updated m si k sp e t Hl) as Hup.
  by destruct (dispatch si sp e t m) as [[[]|ex] m'].
Qed.

Lemma deliver_updated (m : Manager) p now now_h :
  model_updated (spaces m) (spaces (deliver m p now now_h)).
Proof.
  destruct (passes m p now) as [e|] eqn:Hp.
  - apply passes_Some in Hp as [Hn Hd]. unfold deliver.
    rewrite (handle_event_passed _ _ e) by done. unfold processed, try_except.
    pose proof (process_updated (recorded m e now) e now_h) as Hup.
    by destruct (process e now_h (recorded m e now)) as [[[]|ex] m'].
  - rewrite deliver_not_passes by done. apply model_updated_refl.
Qed.

Lemma run_updated (m : Manager) (deliveries : list (gmap string pyval * Q * Q)) :
  model_updated (spaces m) (spaces (run m deliveries)).
Proof.
  revert m. induction deliveries as [|[[p now] h] rest IH]; intros m; simpl.
  - apply model_updated_refl.
  - eapply model_updated_trans; [apply deliver_updated | apply IH].
Qed.

(** X1. Whatever is delivered, and however often, the inventory stands: the
    same spaces under the same keys in the same order, with the same hub ids
    and names, holding the same devices under the same keys in the same
    order, with the same ids and names; no attribute key of a device is ever
    lost, and no attribute other than the thirteen keys of
    [sse_attribute_keys] is ever written. *)
Theorem deliveries_keep_inventory (m : Manager)
    (deliveries : list (gmap string pyval * Q * Q)) :
  model_updated (spaces m) (spaces (run m deliveries)).
Proof. apply run_updated. Qed.

(** *** Exceptions *)

Lemma security_returns (m : Manager) si sp tag src t :
  exists m', _handle_security_event si sp tag src t m = (Val tt, m').
Proof.
  destruct (EVENT_TAG_TO_STATE !! tag) as [st|] eqn:Htab.
  - destruct (security_notification m si sp tag src t st Htab) as (m' & Hrun & _).
    eauto.
  - unfold _handle_security_event. rewrite Htab. by eexists.
Qed.

Lemma apply_to_space_raise (m m' : Manager) si r ex :
  apply_to_space si r m = (Raise ex, m') -> m' = m.
Proof. destruct r; simpl; [done | by intros [= _ <-]]. Qed.

Lemma scenario_raise (m m' : Manager) sp ev tag ex :
  _handle_scenario_event sp ev tag m = (Raise ex, m') -> m' = m.
Proof.
  unfold _handle_scenario_event.
  destruct (scan_additional_data _) as [[name type]|ex']; [|by intros [= _ <-]].
  by destruct (negb (truthy name)).
Qed.

Lemma dispatch_raise (m m' : Manager) si sp e t ex :
  dispatch si sp e t m = (Raise ex, m') -> m' = m.
Proof.
  unfold dispatch.
  destruct (has_key (event_tag e) EVENT_TAG_TO_STATE).
  { destruct (security_returns m si sp (event_tag e) (source_name e) t) as [m0 ->].
    done. }
  repeat match goal with
  | |- context [if has_key ?tag ?table then _ else _] =>
      destruct (has_key tag table); [apply apply_to_space_raise|]
  end.
  destruct (bool_decide _); [apply scenario_raise | done].
Qed.

Lemma process_raise (m m' : Manager) e t ex :
  process e t m = (Raise ex, m') -> m' = m.
Proof.
  unfold process, bind, get_state.
  destruct (find_space (spaces m) (hub_id e)) as [[si sp]|]; [|done].
  destruct (dispatch si sp e t m) as [[[]|ex'] m0] eqn:Hd; [done|].
  intros [= _ <-]. by eapply dispatch_raise.
Qed.

(** X2. When the body of [_handle_event] raises, nothing but the
    de-duplication cache can have been written: the spaces and their
    devices, the protection marks and the calls made on the coordinator are
    as before, so neither a notification nor a model-changed signal goes
    out. Either the manager is untouched, or the delivery had passed
    de-duplication and the manager is the one with its arrival on record. *)
Theorem exception_leaves_model (m m' : Manager) (p : gmap string pyval)
    (now now_h : Q) (ex : exn) :
  handle_event_body p now now_h m = (Raise ex, m') ->
  spaces m' = spaces m
  /\ _last_state_update m' = _last_state_update m
  /\ effects m' = effects m
  /\ (m' = m \/ exists e, passes m p now = Some e /\ m' = recorded m e now).
Proof.
  unfold handle_event_body.
  destruct (normalize p) as [[e|]|ex'] eqn:Hn; [| done |].
  - destruct (is_duplicate m e now) eqn:Hd.
    + by rewrite deduplicate_suppressed.
    + rewrite deduplicate_passed by done. intros ->%process_raise.
      repeat split. right. exists e. split; [|done]. by apply passes_Some.
  - intros [= _ <-]. repeat split. by left.
Qed.

(** *** The model-changed signal *)



End Deliveries.

(** *** A delivery touches one space, and one device in it *)

Section Locality.
Context `{Env}.

Lemma put_space_other si j sp :
  si <> j -> preserves (fun m => spaces m !! j) (put_space si sp).
Proof. intros Hne m. simpl. by apply list_lookup_alter_ne. Qed.

Lemma apply_to_space_other si j r :
  si <> j -> preserves (fun m => spaces m !! j) (apply_to_space si r).
Proof. intros Hne. destruct r; [by apply put_space_other | by intros m]. Qed.

Lemma emit_other j e : preserves (fun m => spaces m !! j) (emit e).
Proof. by intros m. Qed.

Lemma mark_updated_other j hub t :
  preserves (fun m => spaces m !! j) (mark_updated hub t).
Proof. by intros m. Qed.

Lemma scenario_other j sp ev tag :
  preserves (fun m => spaces m !! j) (_handle_scenario_event sp ev tag).
Proof. intros m. by rewrite scenario_spaces. Qed.

Lemma dispatch_other (m : Manager) si j sp e t :
  si <> j -> spaces (dispatch si sp e t m).2 !! j = spaces m !! j.
Proof.
  intros Hne. revert m.
  change (preserves (fun m => spaces m !! j) (dispatch si sp e t)).
  pose proof (put_space_other si j) as Hput.
  pose proof (apply_to_space_other si j) as Happ.
  pose proof (emit_other j) as Hemit.
  pose proof (mark_updated_other j) as Hmark.
  pose proof (scenario_other j) as Hscen.
  unfold dispatch, _handle_security_event. frame.
Qed.

Lemma dispatch_resolved (m : Manager) si sp e t i d :
  is_device_tag (event_tag e) ->
  _find_device (sp_devices sp) (source_name e) (source_id e) = Val (Some (i, d)) ->
  exists f, dispatch si sp e t m = put_space si (update_device i f sp) m.
Proof.
  intros (Hsec & Hdev) Hfind. unfold dispatch. rewrite Hsec.
  repeat match goal with
  | |- context [has_key ?tag ?table] =>
      let Hk := fresh "Hk" in
      destruct (has_key tag table) eqn:Hk;
      [ apply has_key_true in Hk as [[? ?] Hk];
        unfold _handle_door_event, _handle_motion_event, _handle_smoke_event,
          _handle_flood_event, _handle_glass_event, _handle_tamper_event,
          _handle_device_status_event, _handle_relay_event;
        rewrite Hk, (on_device_resolved _ _ _ _ _ _ Hfind);
        by eexists
      | ]
  end.
  discriminate Hdev.
Qed.

Lemma security_devices (m : Manager) si k sp tag src t :
  spaces m !! si = Some (k, sp) ->
  exists sp', spaces (_handle_security_event si sp tag src t m).2 !! si = Some (k, sp')
              /\ sp_devices sp' = sp_devices sp.
Proof.
  intros Hl. unfold _handle_security_event.
  destruct (EVENT_TAG_TO_STATE !! tag) as [st|]; [|by exists sp].
  unfold bind, emit, mark_updated, modify, ret.
  destruct (String.eqb tag "grouparm" || String.eqb tag "groupdisarm");
    destruct (negb (bool_decide (sp_security_state sp = st))); simpl;
    try by exists sp.
  exists (set_space_state st sp). split; [|done].
  by rewrite list_lookup_alter_eq, Hl.
Qed.

Lemma deliver_found (m : Manager) p e now now_h si sp :
  passes m p now = Some e ->
  find_space (spaces m) (hub_id e) = Some (si, sp) ->
  spaces (deliver m p now now_h) = spaces (dispatch si sp e now_h (recorded m e now)).2.
Proof.
  intros [Hn Hd]%passes_Some Hfind. unfold deliver.
  rewrite (handle_event_passed _ _ e) by done.
  unfold processed, try_except, process, bind, get_state. simpl. rewrite Hfind.
  by destruct (dispatch si sp e now_h (recorded m e now)) as [[[]|ex] m'].
Qed.

(** X4. A processed delivery changes at most the first space, in iteration
    order, that bears its hub id: every other space is as it was. A security
    event leaves the devices of that space alone; a device event that
    resolves to a device leaves the security state and every other device of
    the space alone. *)
Theorem delivery_is_local (m : Manager) (p : gmap string pyval) (e : Event)
    (now now_h : Q) (si : nat) (sp : Space) :
  passes m p now = Some e ->
  find_space (spaces m) (hub_id e) = Some (si, sp) ->
  let m' := deliver m p now now_h in
  (forall j, j <> si -> spaces m' !! j = spaces m !! j)
  /\ (has_key (event_tag e) EVENT_TAG_TO_STATE = true ->
      exists k sp', spaces m' !! si = Some (k, sp') /\ sp_devices sp' = sp_devices sp)
  /\ (is_device_tag (event_tag e) ->
      forall i d,
        _find_device (sp_devices sp) (source_name e) (source_id e) = Val (Some (i, d)) ->
        exists k sp',
          spaces m' !! si = Some (k, sp')
          /\ sp_security_state sp' = sp_security_state sp
          /\ forall j, j <> i -> sp_devices sp' !! j = sp_devices sp !! j).
Proof.
  intros Hp Hfind m'. subst m'. rewrite (deliver_found _ _ e _ _ si sp) by done.
  destruct (find_space_lookup _ _ _ _ Hfind) as [k Hl].
  split; [|split].
  - intros j Hj. by rewrite dispatch_other.
  - intros Hsec. unfold dispatch. rewrite Hsec. exists k.
    by apply (security_devices (recorded m e now)).
  - intros Hdev i d Hres.
    destruct (dispatch_resolved (recorded m e now) si sp e now_h i d Hdev Hres)
      as [f ->].
    exists k, (update_device i f sp). simpl. split; [|split; [done|]].
    + by rewrite list_lookup_alter_eq, Hl.
    + intros j Hj. by apply list_lookup_alter_ne.
Qed.

End Locality.

(** ** Security events: group arm and disarm *)

Section Group.
Context `{Env}.

(** X5. A group arm or disarm is not applied to the space: the handler
    requests a refresh from the coordinator, leaves the security state and
    the protection marks as they are, and still creates the notification.
    Any other security event requests no refresh. *)
Theorem group_event_defers_to_refresh (m : Manager) (si : nat) (sp : Space)
    (tag : string) (src : pyval) (t : Q) (st : SecurityState) :
  EVENT_TAG_TO_STATE !! tag = Some st ->
  let who := if get_pending_ha_action (sp_hub_id sp)
             then PStr "Home Assistant" else src in
  let note := CreateNotification (state_value st) who (sp_name sp) in
  let r := _handle_security_event si sp tag src t m in
  (tag = "grouparm" \/ tag = "groupdisarm" ->
     r = emit note (emit RequestRefresh m).2)
  /\ (tag <> "grouparm" -> tag <> "groupdisarm" ->
      effects r.2 = effects m ++ [note]).
Proof.
  intros Htab who note r. subst r. unfold _handle_security_event. rewrite Htab.
  split.
  - intros Hgroup.
    assert (String.eqb tag "grouparm" || String.eqb tag "groupdisarm" = true) as ->.
    { destruct Hgroup as [-> | ->]; reflexivity. }
    rewrite andb_false_r. reflexivity.
  - intros Hga%String.eqb_neq Hgd%String.eqb_neq. rewrite Hga, Hgd. simpl.
    by destruct (negb (bool_decide (sp_security_state sp = st))).
Qed.

End Group.

(** ** Scenario events *)

Section Scenario.
Context `{Env}.

Lemma initiator_info_skips (pre rest : list pyval) :
  Forall other_entry pre -> initiator_info (pre ++ rest) = initiator_info rest.
Proof.
  induction 1 as [|x pre (d & -> & Hother) _ IH]; [done|].
  simpl. by rewrite Hother.
Qed.

(** X6. The scenario handler goes by the first [INITIATOR_INFO] entry of
    [additionalDataV2] and by nothing after it: when that entry has a
    truthy [objectName], one [ajax_scenario_triggered] event is fired with
    the entry's name and type, the payload's [sourceObjectName], the tag and
    the space name; when its [objectName] is missing or empty nothing is
    fired, even if a later entry names an initiator. Without
    [additionalDataV2], or with no [INITIATOR_INFO] entry in it, nothing is
    fired. The handler never writes the model. *)
Theorem scenario_fires_for_first_initiator (m : Manager) (sp : Space)
    (ev : gmap string pyval) (tag : string) (pre post : list pyval)
    (d : gmap string pyval) :
  let r := _handle_scenario_event sp ev tag m in
  (ev !! "additionalDataV2" = Some (PList (pre ++ PDict d :: post)) ->
   Forall other_entry pre ->
   dict_get d "additionalDataV2Type" PNone = PStr "INITIATOR_INFO" ->
   r = if truthy (dict_get d "objectName" PNone)
       then emit (FireScenario (dict_get d "objectName" PNone)
                    (dict_get d "objectType" PNone)
                    (dict_get ev "sourceObjectName" (PStr "")) tag (sp_name sp)) m
       else (Val tt, m))
  /\ (ev !! "additionalDataV2" = None
      \/ (ev !! "additionalDataV2" = Some (PList pre) /\ Forall other_entry pre) ->
      r = (Val tt, m))
  /\ spaces r.2 = spaces m /\ _last_state_update r.2 = _last_state_update m.
Proof.
  intros r. subst r. split; [|split].
  - intros Hev Hpre Htype. unfold _handle_scenario_event, dict_get at 1.
    rewrite Hev. simpl. rewrite initiator_info_skips by done. simpl.
    rewrite Htype. simpl.
    by destruct (truthy (dict_get d "objectName" PNone)).
  - intros [Hev | [Hev Hpre]]; unfold _handle_scenario_event, dict_get at 1;
      rewrite Hev; simpl; [done|].
    rewrite <- (app_nil_r pre), initiator_info_skips by done. done.
  - split; [apply scenario_spaces | apply scenario_marks].
Qed.

End Scenario.

(** ** Device handlers without a transition *)

Lemma set_attr_after (k : string) (v : pyval) (dev : Device) :
  set_attr k v dev = device_after [(k, v)] dev.
Proof.
  unfold set_attr, device_after. f_equal. simpl.
  by rewrite <- insert_union_l, (left_id_L ∅ (∪)).
Qed.

Lemma set_attr_twice_after (k1 k2 : string) (v1 v2 : pyval) (dev : Device) :
  k1 <> k2 ->
  set_attr k2 v2 (set_attr k1 v1 dev) = device_after [(k1, v1); (k2, v2)] dev.
Proof.
  intros Hne. unfold set_attr, device_after. simpl. f_equal.
  rewrite <- !insert_union_l, (left_id_L ∅ (∪)). by apply insert_insert_ne.
Qed.

Section Plain.
Context `{Env}.

Lemma on_device_at (sp : Space) source_name source_id f i dev :
  _find_device (sp_devices sp) source_name source_id = Val (Some (i, dev)) ->
  exists k, sp_devices sp !! i = Some (k, dev)
            /\ on_device sp source_name source_id f
               = Val (space_with_device sp i k (f dev)).
Proof.
  intros Hfind. destruct (find_device_lookup _ _ _ _ _ Hfind) as [k Hk].
  exists k. split; [done|]. rewrite (on_device_resolved _ _ _ _ _ _ Hfind).
  unfold update_device, space_with_device. do 2 f_equal.
  apply list_eq. intros j. destruct (decide (i = j)) as [<-|Hne].
  - rewrite list_lookup_alter_eq, Hk. simpl.
    by rewrite list_lookup_insert_eq by by eapply lookup_lt_Some.
  - by rewrite list_lookup_alter_ne, list_lookup_insert_ne.
Qed.

(** X7. On a resolved device the motion, flood, glass and relay handlers
    assign the flag of the table entry as it is (there is no transition to
    override it), the motion handler also the time of the write, and change
    nothing else: not another attribute, not the online flag, not another
    device, not the space. *)
Theorem plain_handlers_assign_flag (sp : Space) (tag label : string) (flag : bool)
    (source_name source_id : pyval) (now_h : Q) (i : nat) (dev : Device) :
  _find_device (sp_devices sp) source_name source_id = Val (Some (i, dev)) ->
  exists k,
    sp_devices sp !! i = Some (k, dev)
    /\ (MOTION_EVENTS !! tag = Some (label, flag) ->
        _handle_motion_event sp tag source_name source_id now_h
        = Val (space_with_device sp i k
                 (device_after [("motion_detected", PBool flag);
                                ("motion_detected_at", PStr (isoformat now_h))] dev)))
    /\ (FLOOD_EVENTS !! tag = Some (label, flag) ->
        _handle_flood_event sp tag source_name source_id
        = Val (space_with_device sp i k
                 (device_after [("leak_detected", PBool flag)] dev)))
    /\ (GLASS_EVENTS !! tag = Some (label, flag) ->
        _handle_glass_event sp tag source_name source_id
        = Val (space_with_device sp i k
                 (device_after [("glass_break_detected", PBool flag)] dev)))
    /\ (RELAY_EVENTS !! tag = Some (label, flag) ->
        _handle_relay_event sp tag source_name source_id
        = Val (space_with_device sp i k (device_after [("is_on", PBool flag)] dev))).
Proof.
  intros Hfind.
  destruct (find_device_lookup _ _ _ _ _ Hfind) as [k Hk]. exists k.
  split; [done|].
  assert (Hon : forall f, on_device sp source_name source_id f
                          = Val (space_with_device sp i k (f dev))).
  { intros f. destruct (on_device_at sp source_name source_id f i dev Hfind)
      as (k' & Hk' & ->). by simplify_eq. }
  repeat split; intros Htab.
  - unfold _handle_motion_event. rewrite Htab, Hon.
    by rewrite set_attr_twice_after.
  - unfold _handle_flood_event. by rewrite Htab, Hon, set_attr_after.
  - unfold _handle_glass_event. by rewrite Htab, Hon, set_attr_after.
  - unfold _handle_relay_event. by rewrite Htab, Hon, set_attr_after.
Qed.

(** X8. The smoke handler picks the attribute by the label of the table
    entry: [smoke_detected] when the label contains ["smoke"], else
    [temperature_alert] when it contains ["temp"], else [co_detected] when it
    contains ["co"]; it assigns that one attribute and no other. With a label
    that contains none of the three the resolved device is left as it is. *)
Theorem smoke_handler_selects_attribute (sp : Space) (tag label : string)
    (flag : bool) (source_name source_id : pyval) (i : nat) (dev : Device) :
  _find_device (sp_devices sp) source_name source_id = Val (Some (i, dev)) ->
  SMOKE_EVENTS !! tag = Some (label, flag) ->
  exists k,
    sp_devices sp !! i = Some (k, dev)
    /\ _handle_smoke_event sp tag source_name source_id
       = Val (space_with_device sp i k
                (if contains "smoke" label
                 then device_after [("smoke_detected", PBool flag)] dev
                 else if contains "temp" label
                 then device_after [("temperature_alert", PBool flag)] dev
                 else if contains "co" label
                 then device_after [("co_detected", PBool flag)] dev
                 else dev)).
Proof.
  intros Hfind Htab.
  destruct (on_device_at sp source_name source_id
              (fun dev =>
                 if contains "smoke" label
                 then set_attr "smoke_detected" (PBool flag) dev
                 else if contains "temp" label
                 then set_attr "temperature_alert" (PBool flag) dev
                 else if contains "co" label
                 then set_attr "co_detected" (PBool flag) dev
                 else dev) i dev Hfind) as (k & Hk & Hon).
  exists k. split; [done|]. unfold _handle_smoke_event. rewrite Htab, Hon.
  by rewrite !set_attr_after.
Qed.

(** X9. The device-status handler goes by the label of the table entry:
    with ["online"] or ["offline"] in it the device's [online] flag becomes
    the negation of the entry's problem flag and no attribute is written;
    else with ["battery"] in it [low_battery] is assigned the problem flag;
    else with ["power"] in it [external_power_lost] is; else the resolved
    device is left as it is. *)
Theorem device_status_handler_selects (sp : Space) (tag label : string)
    (is_problem : bool) (source_name source_id : pyval) (i : nat) (dev : Device) :
  _find_device (sp_devices sp) source_name source_id = Val (Some (i, dev)) ->
  DEVICE_STATUS_EVENTS !! tag = Some (label, is_problem) ->
  exists k,
    sp_devices sp !! i = Some (k, dev)
    /\ _handle_device_status_event sp tag source_name source_id
       = Val (space_with_device sp i k
                (if contains "online" label || contains "offline" label
                 then set_online (negb is_problem) dev
                 else if contains "battery" label
                 then device_after [("low_battery", PBool is_problem)] dev
                 else if contains "power" label
                 then device_after [("external_power_lost", PBool is_problem)] dev
                 else dev)).
Proof.
  intros Hfind Htab.
  destruct (on_device_at sp source_name source_id
              (fun dev =>
                 if contains "online" label || contains "offline" label
                 then set_online (negb is_problem) dev
                 else if contains "battery" label
                 then set_attr "low_battery" (PBool is_problem) dev
                 else if contains "power" label
                 then set_attr "external_power_lost" (PBool is_problem) dev
                 else dev) i dev Hfind) as (k & Hk & Hon).
  exists k. split; [done|]. unfold _handle_device_status_event. rewrite Htab, Hon.
  by rewrite !set_attr_after.
Qed.

End Plain.

(** ** Normalisation of payloads *)

Lemma lower_ascii_idem (c : ascii) : lower_ascii (lower_ascii c) = lower_ascii c.
Proof. by destruct c as [[] [] [] [] [] [] [] []]. Qed.

Lemma lower_idem (s : string) : lower (lower s) = lower s.
Proof.
  induction s as [|c s IH]; [done|]. simpl. by rewrite lower_ascii_idem, IH.
Qed.

Lemma first_truthy_or (a b : pyval) : py_or a b = first_truthy [a] b.
Proof. done. Qed.

Section Normalize.
Context `{Env}.

Lemma normalize_Some (p : gmap string pyval) (e : Event) :
  normalize p = Val (Some e) ->
  exists ev raw code_info,
    dict_get p "event" (PDict p) = PDict ev
    /\ dict_get ev "eventTag" (PStr "") = PStr raw
    /\ truthy (PStr (lower raw)) = true
    /\ truthy (dict_get ev "hubId" PNone) = true
    /\ parse_event_code (dict_get ev "eventCode" (PStr "")) = Val code_info
    /\ event e = ev
    /\ event_tag e = lower raw
    /\ hub_id e = dict_get ev "hubId" PNone
    /\ transition e = code_field code_info "transition" (PStr "TRIGGERED")
    /\ source_name e
       = (let device := dict_get ev "device" (PDict ∅) in
          let source := dict_get ev "source" (PDict ∅) in
          if negb (truthy (device_or_source device source "name"))
          then py_or (dict_get ev "sourceObjectName" PNone)
                     (dict_get ev "sourceName" (PStr ""))
          else device_or_source device source "name")
    /\ source_id e
       = (match dict_get ev "device" (PDict ∅) with
          | PDict d =>
              if truthy (dict_get d "id" PNone) then dict_get d "id" PNone
              else py_or (dict_get ev "sourceObjectId" PNone)
                         (dict_get ev "deviceId" (PStr ""))
          | _ => py_or (dict_get ev "sourceObjectId" PNone)
                       (dict_get ev "deviceId" (PStr ""))
          end).
Proof.
  unfold normalize.
  destruct (dict_get p "event" (PDict p)) as [| | | | |ev] eqn:Hev; try done.
  destruct (dict_get ev "eventTag" (PStr "")) as [| | |raw| |] eqn:Htag; try done.
  destruct (truthy (PStr (lower raw))) eqn:Ht; [|done].
  destruct (truthy (dict_get ev "hubId" PNone)) eqn:Hh; [|done]. simpl.
  destruct (parse_event_code _) as [code_info|] eqn:Hc; [|done].
  intros [= <-]. exists ev, raw, code_info. by repeat split.
Qed.

(** X10. The nested format is the flat one in an envelope: a payload with
    an event record under ["event"] normalises as the record alone does,
    whatever else the payload carries next to it. *)
Theorem envelope_is_transparent (ev siblings : gmap string pyval) :
  ev !! "event" = None ->
  normalize (<["event" := PDict ev]> siblings) = normalize ev.
Proof.
  intros Hnone. unfold normalize.
  assert (dict_get (<["event" := PDict ev]> siblings) "event"
            (PDict (<["event" := PDict ev]> siblings)) = PDict ev) as ->
    by (unfold dict_get; by rewrite lookup_insert_eq).
  assert (dict_get ev "event" (PDict ev) = PDict ev) as ->
    by (unfold dict_get; by rewrite Hnone).
  done.
Qed.

(** X11. An event that comes out of normalisation can be routed: its tag is
    the lower-cased [eventTag] of the record, a string that is not empty
    and that lower-casing leaves as it is; its hub id is the record's
    [hubId] and is truthy; and its transition is ["TRIGGERED"] whenever the
    code parser has nothing to say (no result, an empty result, or one
    without a transition). *)
Theorem normalized_event_is_routable (p : gmap string pyval) (e : Event) :
  normalize p = Val (Some e) ->
  event_tag e <> ""
  /\ lower (event_tag e) = event_tag e
  /\ truthy (hub_id e) = true
  /\ exists ev raw code_info,
       dict_get p "event" (PDict p) = PDict ev
       /\ ev !! "eventTag" = Some (PStr raw)
       /\ event_tag e = lower raw
       /\ hub_id e = dict_get ev "hubId" PNone
       /\ parse_event_code (dict_get ev "eventCode" (PStr "")) = Val code_info
       /\ (code_info = None \/ code_info = Some ∅
           \/ (exists info, code_info = Some info /\ info !! "transition" = None) ->
           transition e = PStr "TRIGGERED").
Proof.
  intros (ev & raw & code_info & Hev & Htag & Ht & Hh & Hc & _ & Het & Hhub & Htr & _)
    %normalize_Some.
  rewrite Het, Hhub. split; [by apply truthy_PStr|].
  split; [apply lower_idem|]. split; [done|].
  exists ev, raw, code_info. repeat split; try done.
  - unfold dict_get in Htag. destruct (ev !! "eventTag") as [v|]; simpl in Htag.
    + by subst v.
    + injection Htag as <-. done.
  - rewrite Htr. intros [-> | [-> | (info & -> & Hnone)]]; [done..|].
    unfold code_field, dict_get. rewrite Hnone. simpl.
    by destruct (negb (size info =? 0)%nat).
Qed.

(** X12. The source fields are filled in independently of one another, each
    by the first truthy candidate: the source name from [device.name],
    [source.name], [sourceObjectName], and failing these from [sourceName]
    (the empty string when missing); the source id from [device.id],
    [sourceObjectId], and failing these from [deviceId]. A nested object
    that is not a dict counts as having no field; [source] is never asked
    for an id. *)
Theorem source_fields_by_precedence (p : gmap string pyval) (e : Event) :
  normalize p = Val (Some e) ->
  let device := dict_get (event e) "device" (PDict ∅) in
  let source := dict_get (event e) "source" (PDict ∅) in
  source_name e
  = first_truthy [field_of device "name"; field_of source "name";
                  dict_get (event e) "sourceObjectName" PNone]
      (dict_get (event e) "sourceName" (PStr ""))
  /\ source_id e
     = first_truthy [field_of device "id"; dict_get (event e) "sourceObjectId" PNone]
         (dict_get (event e) "deviceId" (PStr "")).
Proof.
  intros (ev & raw & code_info & _ & _ & _ & _ & _ & Hevent & _ & _ & _ & Hname & Hid)
    %normalize_Some.
  rewrite Hevent, Hname, Hid. clear. simpl. unfold device_or_source, py_or, field_of.
  split.
  - destruct (dict_get ev "device" (PDict ∅)) as [| | | | |d]; simpl;
      try destruct (truthy (dict_get d "name" PNone)) eqn:Hd; simpl;
      destruct (dict_get ev "source" (PDict ∅)) as [| | | | |src]; simpl;
      try destruct (truthy (dict_get src "name" PNone)) eqn:Hs; simpl;
      rewrite ?Hd, ?Hs; simpl; try done.
  - destruct (dict_get ev "device" (PDict ∅)) as [| | | | |d]; simpl; try done.
Qed.

End Normalize.

(** ** The de-duplication cache *)

Section Cache.
Context `{Env}.

(** X13. After a processed delivery the cache holds the delivery's own
    record and those of the earlier records that are less than 60 seconds
    old at its arrival, unchanged, and nothing else; so every record in it is
    less than 60 seconds old. A delivery that is not processed (malformed or
    suppressed) does not prune: it leaves the whole manager as it is. *)
Theorem cache_after_delivery (m : Manager) (p : gmap string pyval)
    (now now_h : Q) :
  (forall e, passes m p now = Some e ->
     forall k v,
       _recent_events (deliver m p now now_h) !! k = Some v
       <-> (k = event_key e /\ v = now)
           \/ (k <> event_key e /\ _recent_events m !! k = Some v /\ (now - v < 60)%Q))
  /\ (forall e, passes m p now = Some e ->
        forall k v, _recent_events (deliver m p now now_h) !! k = Some v ->
                    (now - v < 60)%Q)
  /\ (passes m p now = None -> deliver m p now now_h = m).
Proof.
  assert (Hchar : forall e, passes m p now = Some e ->
     forall k v,
       _recent_events (deliver m p now now_h) !! k = Some v
       <-> (k = event_key e /\ v = now)
           \/ (k <> event_key e /\ _recent_events m !! k = Some v /\ (now - v < 60)%Q)).
  { intros e Hp k v. rewrite (deliver_passes _ _ _ _ e) by done. simpl.
    rewrite prune_lookup. destruct (decide (k = event_key e)) as [->|Hne].
    - rewrite lookup_insert_eq. split.
      + intros [[= <-] _]. by left.
      + intros [[_ ->] | [? _]]; [|done]. split; [done | lra].
    - rewrite lookup_insert_ne by done. split.
      + intros [? ?]. by right.
      + intros [[? _] | (_ & ? & ?)]; done. }
  split; [done|]. split.
  - intros e Hp k v [[_ ->] | (_ & _ & Hlt)]%(Hchar e Hp); [lra | done].
  - apply deliver_not_passes.
Qed.

(** X14. The key of a delivery is made of the source id, the tag and the
    transition only. A delivery that agrees on these three with one processed
    less than the window before is suppressed, also when it names another
    hub or another source: two hubs disarmed within the window produce one
    processed event. *)
Theorem dedup_key_ignores_hub (m : Manager) (p1 p2 : gmap string pyval)
    (e1 e2 : Event) (t1 h1 t2 h2 : Q) :
  passes m p1 t1 = Some e1 ->
  normalize p2 = Val (Some e2) ->
  source_id e2 = source_id e1 ->
  event_tag e2 = event_tag e1 ->
  transition e2 = transition e1 ->
  (t2 - t1 < _dedup_window m)%Q ->
  let m1 := deliver m p1 t1 h1 in
  _handle_event p2 t2 h2 m1 = (Val tt, m1).
Proof.
  intros Hp Hn Hid Htag Htr Hlt m1.
  assert (Hkey : event_key e2 = event_key e1)
    by (unfold event_key; by rewrite Hid, Htag, Htr).
  eapply handle_event_suppressed; [done|].
  eapply is_duplicate_within.
  - rewrite Hkey. subst m1. rewrite (deliver_passes _ _ _ _ e1) by done.
    apply recorded_lookup.
  - subst m1. by rewrite deliver_window.
Qed.

End Cache.

(** ** Where protection marks come from *)

Section MarkOrigin.
Context `{Env}.

Lemma security_marks (m : Manager) si sp tag src t :
  _last_state_update (_handle_security_event si sp tag src t m).2
  = _last_state_update m
  \/ _last_state_update (_handle_security_event si sp tag src t m).2
     = <[sp_hub_id sp := t]> (_last_state_update m).
Proof.
  unfold _handle_security_event.
  destruct (EVENT_TAG_TO_STATE !! tag) as [st|]; [|by left].
  unfold bind, emit, put_space, mark_updated, modify, ret.
  destruct (String.eqb tag "grouparm" || String.eqb tag "groupdisarm");
    destruct (negb (bool_decide (sp_security_state sp = st))); simpl; auto.
Qed.

Lemma dispatch_marks (m : Manager) si sp e t :
  _last_state_update (dispatch si sp e t m).2 = _last_state_update m
  \/ _last_state_update (dispatch si sp e t m).2
     = <[sp_hub_id sp := t]> (_last_state_update m).
Proof.
  destruct (has_key (event_tag e) EVENT_TAG_TO_STATE) eqn:Hsec.
  - unfold dispatch. rewrite Hsec. apply security_marks.
  - left. by apply dispatch_device_marks.
Qed.

Lemma deliver_marks (m : Manager) p now now_h :
  _last_state_update (deliver m p now now_h) = _last_state_update m
  \/ exists k sp, (k, sp) ∈ spaces m
       /\ _last_state_update (deliver m p now now_h)
          = <[sp_hub_id sp := now_h]> (_last_state_update m).
Proof.
  destruct (passes m p now) as [e|] eqn:Hp;
    [|left; by rewrite deliver_not_passes].
  apply passes_Some in Hp as [Hn Hd]. unfold deliver.
  rewrite (handle_event_passed _ _ e) by done.
  unfold processed, try_except, process, bind, get_state. simpl.
  destruct (find_space (spaces m) (hub_id e)) as [[si sp]|] eqn:Hfind; [|by left].
  destruct (find_space_lookup _ _ _ _ Hfind) as [k Hl].
  pose proof (dispatch_marks (recorded m e now) si sp e now_h) as Hm.
  destruct (dispatch si sp e now_h (recorded m e now)) as [[[]|ex] m'];
    simpl in *; (destruct Hm as [-> | ->]; [by left | right]);
    exists k, sp; (split; [by eapply list_elem_of_lookup_2 | done]).
Qed.

Lemma deliver_hub_ids (m : Manager) p now now_h (ks' : string * Space) :
  ks' ∈ spaces (deliver m p now now_h) ->
  exists ks, ks ∈ spaces m /\ sp_hub_id ks.2 = sp_hub_id ks'.2.
Proof.
  intros [i Hi]%list_elem_of_lookup_1.
  destruct (Forall2_lookup_r _ _ _ _ _ (deliver_updated m p now now_h) Hi)
    as (ks & Hks & _ & Hhub & _).
  exists ks. split; [by eapply list_elem_of_lookup_2 | done].
Qed.

(** X15. Protection marks have one origin. Over any run of deliveries, a
    mark that was not there before belongs to the hub of one of the spaces
    of the account and is the handler's clock reading of one of the
    deliveries; no delivery removes a mark or marks a hub the account does
    not have. *)
Theorem marks_belong_to_known_hubs (m : Manager)
    (deliveries : list (gmap string pyval * Q * Q)) (hub : string) :
  (forall t, _last_state_update (run m deliveries) !! hub = Some t ->
     _last_state_update m !! hub = Some t
     \/ ((exists ks, ks ∈ spaces m /\ sp_hub_id ks.2 = hub)
         /\ exists d, d ∈ deliveries /\ d.2 = t))
  /\ (is_Some (_last_state_update m !! hub) ->
      is_Some (_last_state_update (run m deliveries) !! hub)).
Proof.
  revert m. induction deliveries as [|[[p now] h] rest IH]; intros m; simpl.
  { split; [by left | done]. }
  destruct (IH (deliver m p now h)) as [IHnew IHkept]. split.
  - intros t [Hold | [(ks' & Hin' & Hhub) (d & Hd & Ht)]]%IHnew.
    + destruct (deliver_marks m p now h) as [Heq | (k & sp & Hin & Heq)];
        rewrite Heq in Hold; [by left|].
      destruct (decide (sp_hub_id sp = hub)) as [<-|Hne].
      * rewrite lookup_insert_eq in Hold. injection Hold as <-. right. split.
        -- by exists (k, sp).
        -- exists (p, now, h). split; [apply list_elem_of_here | done].
      * rewrite lookup_insert_ne in Hold by done. by left.
    + right. split.
      * destruct (deliver_hub_ids m p now h ks' Hin') as (ks & Hin & Heq).
        exists ks. split; [done | congruence].
      * exists d. split; [by apply list_elem_of_further | done].
  - intros Hsome. apply IHkept.
    destruct (deliver_marks m p now h) as [-> | (k & sp & _ & ->)]; [done|].
    destruct (decide (sp_hub_id sp = hub)) as [<-|Hne].
    + rewrite lookup_insert_eq. eauto.
    + by rewrite lookup_insert_ne.
Qed.

End MarkOrigin.

(** * Entities of a door contact *)

Lemma door_sensor_state (built_for device : Device) :
  binary_sensor_state (get_binary_sensors built_for) "door" device
  = Some (attr_or_false "door_opened" device).
Proof. reflexivity. Qed.

Lemma tamper_sensor_state (built_for device : Device) :
  binary_sensor_state (get_binary_sensors built_for) "tamper" device
  = Some (attr_or_false "tampered" device).
Proof.
  unfold binary_sensor_state, get_binary_sensors.
  by destruct (has_key "external_contact_opened" (dev_attributes built_for)).
Qed.

Lemma has_key_lookup {V} (k : string) (m1 m2 : gmap string V) :
  m1 !! k = m2 !! k -> has_key k m1 = has_key k m2.
Proof. unfold has_key. by intros ->. Qed.

Lemma binary_sensors_updated (d d' : Device) :
  device_updated d d' -> get_binary_sensors d' = get_binary_sensors d.
Proof.
  intros (_ & _ & _ & Hother). unfold get_binary_sensors.
  assert (Hk : forall k, k ∉ sse_attribute_keys ->
                 has_key k (dev_attributes d') = has_key k (dev_attributes d))
    by (intros k Hk; by apply has_key_lookup, Hother).
  rewrite !Hk by (apply (bool_decide_unpack _); exact I). done.
Qed.

(** X16. The entity descriptions of a door contact have pairwise distinct
    keys, whatever the device: both among the binary sensors and among the
    sensors. The door, always-active, armed-in-night-mode and tamper binary
    sensors and the battery and signal-strength sensors are described for
    every device, with or without the attribute or level they show. *)
Theorem door_contact_entity_keys (device : Device) (info : DeviceInfo) :
  NoDup (bs_key <$> get_binary_sensors device)
  /\ ["door"; "always_active"; "armed_in_night_mode"; "tamper"]
     ⊆ bs_key <$> get_binary_sensors device
  /\ NoDup (s_key <$> get_sensors info)
  /\ ["battery"; "signal_strength"] ⊆ s_key <$> get_sensors info.
Proof.
  unfold get_binary_sensors, get_sensors.
  destruct (has_key "external_contact_opened" _),
    (has_key "tilt_detected" _ || has_key "tilt" _),
    (has_key "shock_detected" _ || has_key "shock" _),
    (has_key "temperature" _), (is_not_None (firmware_version info)),
    (is_not_None (hardware_version info)), (has_key "connection_type" _),
    (has_key "operating_mode" _), (is_not_None (battery_state info));
    simpl; (split; [apply (bool_decide_unpack _); exact I|]);
    (split; [apply (bool_decide_unpack _); exact I|]);
    (split; apply (bool_decide_unpack _); exact I).
Qed.

Section Entities.
Context `{Env}.

(** X17. The door and tamper entities show what the push events wrote. For
    a list of entity descriptions built for the device at any earlier time,
    also before the attribute existed: after a door event on the resolved
    device the door entity shows the flag the handler assigned (the table's,
    overridden by the transition), and after a tamper event the tamper
    entity does; on a device that has no [door_opened] attribute the door
    entity shows [False]. *)
Theorem door_entity_follows_events (sp : Space) (tag label : string) (dflt : bool)
    (source_name source_id transition : pyval) (now_h : Q) (i : nat)
    (dev built_for : Device) :
  _find_device (sp_devices sp) source_name source_id = Val (Some (i, dev)) ->
  let flag := override_by_transition dflt transition in
  (DOOR_EVENTS !! tag = Some (label, dflt) ->
   exists sp' k dev',
     _handle_door_event sp tag source_name source_id transition now_h = Val sp'
     /\ sp_devices sp' !! i = Some (k, dev')
     /\ binary_sensor_state (get_binary_sensors built_for) "door" dev'
        = Some (PBool flag))
  /\ (TAMPER_EVENTS !! tag = Some (label, dflt) ->
      exists sp' k dev',
        _handle_tamper_event sp tag source_name source_id transition = Val sp'
        /\ sp_devices sp' !! i = Some (k, dev')
        /\ binary_sensor_state (get_binary_sensors built_for) "tamper" dev'
           = Some (PBool flag))
  /\ (dev_attributes dev !! "door_opened" = None ->
      binary_sensor_state (get_binary_sensors built_for) "door" dev
      = Some (PBool false)).
Proof.
  intros Hfind flag.
  destruct (find_device_lookup _ _ _ _ _ Hfind) as [k Hk].
  split; [|split].
  - intros Htab. unfold _handle_door_event. rewrite Htab.
    rewrite (on_device_resolved _ _ _ _ _ _ Hfind).
    eexists _, k, _. split; [done|]. split; [by apply update_device_lookup|].
    rewrite door_sensor_state. unfold attr_or_false, dict_get. simpl.
    rewrite lookup_insert_ne by done. by rewrite lookup_insert_eq.
  - intros Htab. unfold _handle_tamper_event. rewrite Htab.
    rewrite (on_device_resolved _ _ _ _ _ _ Hfind).
    eexists _, k, _. split; [done|]. split; [by apply update_device_lookup|].
    rewrite tamper_sensor_state. unfold attr_or_false, dict_get. simpl.
    by rewrite lookup_insert_eq.
  - intros Hnone. rewrite door_sensor_state. unfold attr_or_false, dict_get.
    by rewrite Hnone.
Qed.

(** X18. Push events neither create nor retire an entity of a door contact:
    over any run of deliveries the device found at a position of a space is
    found there afterwards, under the same key, and the binary sensors
    described for it are the same. *)
Theorem entities_survive_deliveries (m : Manager)
    (deliveries : list (gmap string pyval * Q * Q))
    (si di : nat) (k dk : string) (sp : Space) (d : Device) :
  spaces m !! si = Some (k, sp) ->
  sp_devices sp !! di = Some (dk, d) ->
  exists sp' d',
    spaces (run m deliveries) !! si = Some (k, sp')
    /\ sp_devices sp' !! di = Some (dk, d')
    /\ get_binary_sensors d' = get_binary_sensors d.
Proof.
  intros Hsp Hd.
  destruct (Forall2_lookup_l _ _ _ _ _ (run_updated m deliveries) Hsp)
    as ([k' sp'] & Hsp' & Hk & _ & _ & Hdevs). simpl in *. subst k'.
  destruct (Forall2_lookup_l _ _ _ _ _ Hdevs Hd) as ([dk' d'] & Hd' & Hdk & Hup).
  simpl in *. subst dk'.
  exists sp', d'. split; [done|]. split; [done|]. by apply binary_sensors_updated.
Qed.

End Entities.

(** * Entries and services of the integration *)

(** ** Unique ids *)

Lemma str_split_free (sep : ascii) (s : string) :
  has_char sep s = false -> str_split sep s = [s].
Proof.
  induction s as [|c s IH]; simpl; [done|].
  intros [Hc Hs]%orb_false_elim. rewrite Hc. by rewrite IH.
Qed.

Lemma str_split_sep (sep : ascii) (a b : string) :
  has_char sep a = false ->
  str_split sep (a +:+ String sep b) = a :: str_split sep b.
Proof.
  induction a as [|c a IH].
  - intros _. change ("" +:+ String sep b) with (String sep b). simpl.
    by rewrite Ascii.eqb_refl.
  - intros Hfree. simpl in Hfree. apply orb_false_elim in Hfree as [Hc Ha].
    rewrite append_cons. simpl. by rewrite Hc, IH.
Qed.

Lemma str_split_nonempty (sep : ascii) (s : string) : str_split sep s <> [].
Proof.
  destruct s as [|c s]; simpl; [done|].
  destruct (Ascii.eqb c sep); [done|]. by destruct (str_split sep s).
Qed.

Lemma str_split_cons (sep : ascii) (s p : string) (ps : list string) :
  str_split sep s = p :: ps ->
  has_char sep p = false
  /\ ((ps = [] /\ s = p)
      \/ exists r, s = p +:+ String sep r /\ str_split sep r = ps).
Proof.
  revert p ps. induction s as [|c s IH]; intros p ps; simpl.
  - intros [= <- <-]. split; [done | by left].
  - destruct (Ascii.eqb c sep) eqn:Hc.
    + intros [= <- <-]. split; [done|]. right. exists s.
      apply Ascii.eqb_eq in Hc as ->. done.
    + destruct (str_split sep s) as [|q qs] eqn:Hs.
      * by apply str_split_nonempty in Hs.
      * intros [= <- <-]. destruct (IH q qs eq_refl) as [Hq Hcase].
        split; [simpl; by rewrite Hc, Hq|].
        destruct Hcase as [[-> ->] | (r & -> & Hr)]; [by left|].
        right. exists r. by rewrite append_cons.
Qed.

Lemma append_assoc (a b c : string) : (a +:+ b) +:+ c = a +:+ (b +:+ c).
Proof.
  induction a as [|x a IH]; [done|]. by rewrite !append_cons, IH.
Qed.

Lemma append_nil_r (a : string) : a +:+ "" = a.
Proof. induction a as [|x a IH]; [done|]. by rewrite append_cons, IH. Qed.

Lemma space_id_of_unique_id_Some (unique_id space_id : string) :
  space_id_of_unique_id unique_id = Some space_id
  <-> exists entry_id tail,
        unique_id = entry_id +:+ "_alarm_" +:+ space_id +:+ tail
        /\ has_char "_" entry_id = false
        /\ has_char "_" space_id = false
        /\ ignored_tail tail.
Proof.
  unfold space_id_of_unique_id. split.
  - destruct (str_split "_" unique_id) as [|p0 [|p1 [|p2 ps]]] eqn:Hsplit;
      simpl; try done.
    destruct (String.eqb p1 "alarm") eqn:Halarm; simpl; [|done].
    apply String.eqb_eq in Halarm as ->. intros [= <-].
    apply str_split_cons in Hsplit as [H0 [[? _] | (r1 & -> & Hsplit)]]; [done|].
    apply str_split_cons in Hsplit as [_ [[? _] | (r2 & -> & Hsplit)]]; [done|].
    apply str_split_cons in Hsplit as [H2 Hcase].
    destruct Hcase as [[-> ->] | (r3 & -> & _)].
    + exists p0, "". rewrite append_nil_r. repeat split; [done..|by left].
    + exists p0, (String "_" r3). repeat split; [done..|]. right. by eexists.
  - intros (entry_id & tail & -> & He & Hs & Htail).
    change ("_alarm_" +:+ space_id +:+ tail)
      with (String "_" ("alarm" +:+ String "_" (space_id +:+ tail))).
    rewrite str_split_sep by done. rewrite str_split_sep by done.
    destruct Htail as [-> | [rest ->]].
    + rewrite append_nil_r, str_split_free by done. done.
    + rewrite str_split_sep by done. done.
Qed.

(** X19. The service handlers read the space id off the unique id of the
    entity by cutting it at the underscores. A unique id is accepted exactly
    when it is an entry id without underscore, ["_alarm_"], and a space id,
    and the space id taken is the text up to the next underscore: what
    follows a further underscore is ignored. So a unique id of the format
    is read back when neither id has an underscore; a space id with an
    underscore is cut short; and an entry id with an underscore makes the
    unique id unreadable unless its second piece happens to be ["alarm"]. *)
Theorem unique_id_is_cut_at_underscores (unique_id entry_id space_id rest : string) :
  (forall s, space_id_of_unique_id unique_id = Some s
     <-> exists e tail,
           unique_id = e +:+ "_alarm_" +:+ s +:+ tail
           /\ has_char "_" e = false /\ has_char "_" s = false /\ ignored_tail tail)
  /\ (has_char "_" entry_id = false -> has_char "_" space_id = false ->
      space_id_of_unique_id (entry_id +:+ "_alarm_" +:+ space_id) = Some space_id
      /\ space_id_of_unique_id
           (entry_id +:+ "_alarm_" +:+ space_id +:+ "_" +:+ rest) = Some space_id
      /\ (rest <> "alarm" -> has_char "_" rest = false ->
          space_id_of_unique_id
            ((entry_id +:+ "_" +:+ rest) +:+ "_alarm_" +:+ space_id) = None)).
Proof.
  split; [intros s; apply space_id_of_unique_id_Some|].
  intros He Hs. split; [|split].
  - apply space_id_of_unique_id_Some. exists entry_id, "".
    rewrite append_nil_r. repeat split; [done..|by left].
  - apply space_id_of_unique_id_Some. exists entry_id, ("_" +:+ rest).
    repeat split; [done..|]. right. by eexists.
  - intros Hrest Hfree. unfold space_id_of_unique_id.
    rewrite !append_assoc.
    change ("_" +:+ rest +:+ "_alarm_" +:+ space_id)
      with (String "_" (rest +:+ String "_" ("alarm" +:+ String "_" space_id))).
    rewrite !str_split_sep by done. simpl.
    apply String.eqb_neq in Hrest. by rewrite Hrest.
Qed.

(** X20. A force-arm service call reaches the coordinator exactly when the
    call names an entity, the entity registry knows it, and its unique id is
    accepted; the call is then [async_arm_space], or [async_arm_night_mode]
    for the night service, for the space id read off the unique id, with
    [force] set. In every other case the handler returns without calling the
    coordinator. *)
Theorem force_arm_reaches_coordinator (registry : gmap string string)
    (entity_id : option string) (call : coordinator_call) :
  (async_handle_force_arm registry entity_id = Some call
   <-> exists id e s tail,
         entity_id = Some id /\ id <> ""
         /\ registry !! id = Some (e +:+ "_alarm_" +:+ s +:+ tail)
         /\ has_char "_" e = false /\ has_char "_" s = false /\ ignored_tail tail
         /\ call = async_arm_space s true)
  /\ (async_handle_force_arm_night registry entity_id = Some call
      <-> exists id e s tail,
            entity_id = Some id /\ id <> ""
            /\ registry !! id = Some (e +:+ "_alarm_" +:+ s +:+ tail)
            /\ has_char "_" e = false /\ has_char "_" s = false /\ ignored_tail tail
            /\ call = async_arm_night_mode s true).
Proof.
  unfold async_handle_force_arm, async_handle_force_arm_night.
  split; (split;
    [ destruct entity_id as [id|]; [|done];
      destruct (String.eqb id "") eqn:Hid; [done|]; apply String.eqb_neq in Hid;
      destruct (registry !! id) as [uid|] eqn:Hreg; [|done];
      destruct (space_id_of_unique_id uid) as [s|] eqn:Hs; [|done];
      intros [= <-];
      apply space_id_of_unique_id_Some in Hs as (e & tail & -> & He & Hfree & Htail);
      by exists id, e, s, tail
    | intros (id & e & s & tail & -> & Hid%String.eqb_neq & Hreg & He & Hs & Htail & ->);
      rewrite Hid, Hreg;
      assert (space_id_of_unique_id (e +:+ "_alarm_" +:+ s +:+ tail) = Some s) as ->
        by (apply space_id_of_unique_id_Some; by exists e, tail);
      done ]).
Qed.

(** ** Setting up and unloading entries *)






(** X22. The services belong to the entry set up last. A successful setup
    binds both services to the coordinator it creates, whichever coordinator
    they were bound to; when that entry is unloaded while another entry is
    still loaded, the services stay registered, bound to the coordinator
    whose API connection has just been closed. When it was the only entry,
    unloading it removes both services. *)
Theorem services_follow_last_setup (hass : Hass) (entry_id : string) :
  let c := next_object hass in
  let r := async_setup_entry entry_id LoggedIn None None hass in
  let u := async_unload_entry entry_id true None r.2 in
  r.1 = Val true
  /\ entries r.2 = <[entry_id := c]> (entries hass)
  /\ services r.2 !! "force_arm" = Some c
  /\ services r.2 !! "force_arm_night" = Some c
  /\ u.1 = Val true
  /\ entries u.2 = delete entry_id (entries hass)
  /\ c ∈ closed u.2
  /\ (delete entry_id (entries hass) <> ∅ -> services u.2 = services r.2)
  /\ (delete entry_id (entries hass) = ∅ ->
      services u.2 !! "force_arm" = None
      /\ services u.2 !! "force_arm_night" = None).
Proof.
  intros c r u.
  assert (Hr : r = (Val true,
                    {| domain_data := Some (<[entry_id := c]> (entries hass));
                       services := <["force_arm_night" := c]>
                                     (<["force_arm" := c]> (services hass));
                       closed := closed hass; next_object := S c |}))
    by reflexivity.
  assert (Hu : u = (Val true,
                    {| domain_data := Some (delete entry_id (entries hass));
                       services :=
                         if (size (delete entry_id (entries hass)) =? 0)%nat
                         then delete "force_arm_night"
                                (delete "force_arm" (services r.2))
                         else services r.2;
                       closed := closed hass ++ [c]; next_object := S c |})).
  { subst u. rewrite Hr. unfold async_unload_entry. simpl.
    rewrite lookup_insert_eq. unfold entries. simpl.
    rewrite !delete_insert_eq.
    by destruct (size (delete entry_id (default ∅ (domain_data hass))) =? 0)%nat. }
  rewrite Hu, Hr. simpl.
  split; [done|]. split; [done|].
  split; [rewrite lookup_insert_ne by done; apply lookup_insert_eq|].
  split; [apply lookup_insert_eq|].
  split; [done|]. split; [done|].
  split; [apply elem_of_app; right; constructor|]. split.
  - intros Hne%map_size_non_empty_iff%Nat.eqb_neq. by rewrite Hne.
  - intros Hempty%map_size_empty_iff%Nat.eqb_eq. rewrite Hempty. split.
    + rewrite lookup_delete_ne by done. apply lookup_delete_eq.
    + apply lookup_delete_eq.
Qed.

(** A setup that fails early stores nothing: when the login is refused
    ([async_setup_entry] returns [False]), when the API fails
    ([ConfigEntryNotReady] is raised) and when the first refresh raises, the
    entries and the services are as before. A setup that fails while the
    platforms are being forwarded leaves its coordinator stored under the
    entry id, with the services as before, and raises. *)
Lemma failed_setup (hass : Hass) (entry_id : string) (ex : exn)
    (first_refresh forward : option exn) :
  let refused := async_setup_entry entry_id AjaxAuthError first_refresh forward hass in
  let api_down := async_setup_entry entry_id AjaxApiError first_refresh forward hass in
  let no_refresh := async_setup_entry entry_id LoggedIn (Some ex) forward hass in
  let no_forward := async_setup_entry entry_id LoggedIn None (Some ex) hass in
  (refused.1 = Val false
   /\ entries refused.2 = entries hass /\ services refused.2 = services hass)
  /\ (api_down.1 = Raise (OtherError "ConfigEntryNotReady")
      /\ entries api_down.2 = entries hass /\ services api_down.2 = services hass)
  /\ (no_refresh.1 = Raise ex
      /\ entries no_refresh.2 = entries hass /\ services no_refresh.2 = services hass)
  /\ (no_forward.1 = Raise ex
      /\ entries no_forward.2 = <[entry_id := next_object hass]> (entries hass)
      /\ services no_forward.2 = services hass).
Proof. by repeat split. Qed.

(** * The further properties on the sample installation *)

Lemma exception_leaves_model_witness :
  let r := handle_event_body numeric_device 1000 1000 sample_manager in
  r.1 = Raise TypeError
  /\ spaces r.2 = spaces sample_manager
  /\ effects r.2 = []
  /\ _recent_events r.2 !! "<object>:dooropened:TRIGGERED" = Some 1000%Q.
Proof.
  intros r.
  destruct (exception_leaves_model sample_manager r.2 numeric_device 1000 1000
              TypeError) as (Hspaces & _ & Heffects & _); [reflexivity|].
  split; [reflexivity|]. split; [exact Hspaces|]. split; [exact Heffects|].
  reflexivity.
Defined.


Lemma delivery_is_local_witness :
  let m' := deliver sample_manager door_opened_D1 1000 1000 in
  spaces m' !! 1%nat = Some ("s2", office)
  /\ exists k sp',
       spaces m' !! 0%nat = Some (k, sp')
       /\ sp_security_state sp' = ARMED
       /\ sp_devices sp' !! 1%nat = Some ("0011223344556677", wire_input).
Proof.
  intros m'.
  destruct (delivery_is_local sample_manager door_opened_D1 door_opened_D1_event
              1000 1000 0 home) as (Hother & _ & Hdevice);
    [reflexivity | reflexivity |].
  split.
  - etransitivity; [apply (Hother 1%nat); discriminate | reflexivity].
  - destruct (Hdevice (conj eq_refl eq_refl) 0%nat front_door eq_refl)
      as (k & sp' & Hsp & Hstate & Hdevs).
    exists k, sp'. split; [exact Hsp|]. split; [exact Hstate|].
    etransitivity; [apply (Hdevs 1%nat); discriminate | reflexivity].
Defined.

Lemma group_event_defers_to_refresh_witness :
  let r := _handle_security_event 0 home "groupdisarm" (PStr "Alice") 1000
             sample_manager in
  spaces r.2 = spaces sample_manager
  /\ _last_state_update r.2 = ∅
  /\ effects r.2
     = [RequestRefresh; CreateNotification "disarmed" (PStr "Alice") "Home"].
Proof.
  intros r.
  destruct (group_event_defers_to_refresh sample_manager 0 home "groupdisarm"
              (PStr "Alice") 1000 DISARMED) as [Hgroup _]; [reflexivity|].
  subst r. rewrite Hgroup; [|by right]. repeat split; reflexivity.
Defined.

Lemma scenario_fires_for_first_initiator_witness :
  _handle_scenario_event home relay_on_by_button "relayonbyscenario" sample_manager
  = emit (FireScenario (PStr "Button") (PStr "BUTTON") (PStr "Lamp")
            "relayonbyscenario" "Home") sample_manager.
Proof.
  destruct (scenario_fires_for_first_initiator sample_manager home relay_on_by_button
              "relayonbyscenario"
              [PDict (payload [("additionalDataV2Type", PStr "OBJECT_INFO")])]
              [PInt 0]
              (payload [("additionalDataV2Type", PStr "INITIATOR_INFO");
                        ("objectName", PStr "Button");
                        ("objectType", PStr "BUTTON")])) as [Hfires _].
  rewrite Hfires; [reflexivity | reflexivity | | reflexivity].
  constructor; [|constructor]. eexists. split; reflexivity.
Defined.

Lemma plain_handlers_assign_flag_witness :
  _handle_motion_event home "motiondetected" (PStr "") (PStr "D1") 1000
  = Val (space_with_device home 0 "D1"
           (device_after [("motion_detected", PBool true);
                          ("motion_detected_at", PStr "1000")] front_door)).
Proof.
  destruct (plain_handlers_assign_flag home "motiondetected" "motion_detected" true
              (PStr "") (PStr "D1") 1000 0 front_door eq_refl)
    as (k & Hk & Hmotion & _).
  injection Hk as <-. apply Hmotion. reflexivity.
Defined.

Lemma smoke_handler_selects_attribute_witness :
  _handle_smoke_event home "smokedetected" (PStr "Front door") (PStr "")
  = Val (space_with_device home 0 "D1"
           (device_after [("smoke_detected", PBool true)] front_door)).
Proof.
  destruct (smoke_handler_selects_attribute home "smokedetected" "smoke_detected"
              true (PStr "Front door") (PStr "") 0 front_door eq_refl eq_refl)
    as (k & Hk & Hsmoke).
  injection Hk as <-. exact Hsmoke.
Defined.

Lemma device_status_handler_selects_witness :
  _handle_device_status_event home "deviceoffline" (PStr "") (PStr "D1")
  = Val (space_with_device home 0 "D1" (set_online false front_door)).
Proof.
  destruct (device_status_handler_selects home "deviceoffline" "device_offline"
              true (PStr "") (PStr "D1") 0 front_door eq_refl eq_refl)
    as (k & Hk & Hstatus).
  injection Hk as <-. exact Hstatus.
Defined.

Lemma envelope_is_transparent_witness :
  normalize (<["event" := PDict disarm_by_alice]> untagged)
  = Val (Some disarm_by_alice_event).
Proof.
  rewrite (envelope_is_transparent disarm_by_alice untagged); reflexivity.
Defined.

Lemma normalized_event_is_routable_witness :
  lower (event_tag layered_event) = event_tag layered_event
  /\ truthy (hub_id layered_event) = true.
Proof.
  assert (Hnorm : normalize layered = Val (Some layered_event)) by reflexivity.
  destruct (normalized_event_is_routable layered layered_event Hnorm)
    as (_ & Hlower & Hhub & _).
  split; [exact Hlower | exact Hhub].
Defined.

Lemma source_fields_by_precedence_witness :
  source_name layered_event = PStr "Alice" /\ source_id layered_event = PStr "D1".
Proof.
  assert (Hnorm : normalize layered = Val (Some layered_event)) by reflexivity.
  destruct (source_fields_by_precedence layered layered_event Hnorm)
    as [Hname Hid].
  split; [rewrite Hname | rewrite Hid]; reflexivity.
Defined.

Lemma cache_after_delivery_witness :
  let m1 := deliver sample_manager door_opened_D1 1000 1000 in
  let m2 := deliver m1 disarm_by_alice 1070 1070 in
  _recent_events m2 !! ":disarm:TRIGGERED" = Some 1070%Q
  /\ forall v, _recent_events m2 !! "D1:dooropened:TRIGGERED" = Some v -> (1070 - v < 60)%Q.
Proof.
  intros m1 m2.
  destruct (cache_after_delivery m1 disarm_by_alice 1070 1070) as (Hchar & Hyoung & _).
  assert (Hp : passes m1 disarm_by_alice 1070 = Some disarm_by_alice_event)
    by reflexivity.
  split.
  - apply (Hchar disarm_by_alice_event Hp). left. split; reflexivity.
  - intros v. apply (Hyoung disarm_by_alice_event Hp).
Defined.

Lemma dedup_key_ignores_hub_witness :
  let m1 := deliver sample_manager disarm_by_alice 1000 1000 in
  _handle_event disarm_office 1002 1002 m1 = (Val tt, m1).
Proof.
  assert (Hp : passes sample_manager disarm_by_alice 1000 = Some disarm_by_alice_event)
    by reflexivity.
  assert (Hn : normalize disarm_office = Val (Some disarm_office_event))
    by reflexivity.
  apply (dedup_key_ignores_hub sample_manager disarm_by_alice disarm_office
           disarm_by_alice_event disarm_office_event 1000 1000 1002 1002 Hp Hn);
    reflexivity.
Defined.

Lemma marks_belong_to_known_hubs_witness :
  _last_state_update sample_manager !! "H1" = Some 1000%Q
  \/ ((exists ks, ks ∈ spaces sample_manager /\ sp_hub_id ks.2 = "H1")
      /\ exists d, d ∈ [(disarm_by_alice, 1000%Q, 1000%Q)] /\ d.2 = 1000%Q).
Proof.
  destruct (marks_belong_to_known_hubs sample_manager
              [(disarm_by_alice, 1000%Q, 1000%Q)] "H1") as [Hnew _].
  apply Hnew. reflexivity.
Defined.

Lemma door_entity_follows_events_witness :
  (exists sp' k dev',
     _handle_door_event home "dooropened" (PStr "") (PStr "D1") (PStr "RECOVERED") 1000
     = Val sp'
     /\ sp_devices sp' !! 0%nat = Some (k, dev')
     /\ binary_sensor_state (get_binary_sensors front_door) "door" dev'
        = Some (PBool false))
  /\ binary_sensor_state (get_binary_sensors front_door) "door" front_door
     = Some (PBool false).
Proof.
  assert (Hfind : _find_device (sp_devices home) (PStr "") (PStr "D1")
                  = Val (Some (0%nat, front_door))) by reflexivity.
  destruct (door_entity_follows_events home "dooropened" "door_opened" true
              (PStr "") (PStr "D1") (PStr "RECOVERED") 1000 0 front_door front_door
              Hfind) as (Hdoor & _ & Hnone).
  split; [apply Hdoor | apply Hnone]; reflexivity.
Defined.

Lemma entities_survive_deliveries_witness :
  exists sp' d',
    spaces (run sample_manager
              [(door_opened_D1, 1000%Q, 1000%Q); (disarm_by_alice, 1070%Q, 1070%Q)])
      !! 0%nat = Some ("s1", sp')
    /\ sp_devices sp' !! 0%nat = Some ("D1", d')
    /\ get_binary_sensors d' = get_binary_sensors front_door.
Proof.
  apply (entities_survive_deliveries sample_manager
           [(door_opened_D1, 1000%Q, 1000%Q); (disarm_by_alice, 1070%Q, 1070%Q)]
           0 0 "s1" "D1" home front_door); reflexivity.
Defined.

Lemma unique_id_is_cut_at_underscores_witness :
  space_id_of_unique_id "01HXENTRY_alarm_A1B2C3" = Some "A1B2C3"
  /\ space_id_of_unique_id "01HXENTRY_alarm_A1B2C3_night" = Some "A1B2C3"
  /\ space_id_of_unique_id "01HXENTRY_night_alarm_A1B2C3" = None.
Proof.
  destruct (unique_id_is_cut_at_underscores "" "01HXENTRY" "A1B2C3" "night")
    as [_ Hformat].
  destruct (Hformat eq_refl eq_refl) as (Hplain & Hlonger & Hentry).
  split; [exact Hplain|]. split; [exact Hlonger|].
  apply Hentry; [discriminate | reflexivity].
Defined.

Lemma force_arm_reaches_coordinator_witness :
  async_handle_force_arm sample_registry (Some "alarm_control_panel.home")
  = Some (async_arm_space "A1B2C3" true).
Proof.
  destruct (force_arm_reaches_coordinator sample_registry
              (Some "alarm_control_panel.home") (async_arm_space "A1B2C3" true))
    as [[_ Hcall] _].
  apply Hcall. exists "alarm_control_panel.home", "01HXENTRY", "A1B2C3", "".
  split; [reflexivity|]. split; [discriminate|]. split; [reflexivity|].
  split; [reflexivity|]. split; [reflexivity|]. split; [by left | reflexivity].
Defined.


Lemma services_follow_last_setup_witness :
  let r := async_setup_entry "A" LoggedIn None None fresh_hass in
  services r.2 !! "force_arm" = Some 0%nat
  /\ services (async_unload_entry "A" true None r.2).2 !! "force_arm" = None.
Proof.
  intros r.
  destruct (services_follow_last_setup fresh_hass "A")
    as (_ & _ & Hbound & _ & _ & _ & _ & _ & Hlast).
  split; [exact Hbound|]. apply Hlast. reflexivity.
Defined.
